(** * LoRaEnergySim: the gateway (Gateway.py)

    A shallow embedding of [Gateway]: the link-budget filter, the bounded
    SNR history, the ADR controller, the duty-cycle check, the downlink
    window selection and the statistics report.

    Modelling conventions.
    - In the model of the whole gateway, Python floats (RSS, SNR, airtime,
      simulated time) are read as exact rationals [Q].  The two decisions
      that turn on the rounding of a computed number, the ADR step count and
      the duty-cycle comparison, are also written on binary64 floats, in
      [Double], and the properties of those decisions are stated there.
      Integer quantities (spreading factor, data rate, transmit power,
      frequencies, node ids, counters) are [Z].
    - The value [np.round] returns is a float with an integral value; it is
      modelled by the integer it denotes.  NumPy rounds ties to the nearest
      even value.
    - A method of [Gateway] is a computation in a state-and-exception monad
      over the gateway's fields: a raised exception keeps the mutations made
      before it, as in Python.
    - Dictionaries are [gmap]s; [deque(maxlen=20)] is a list together with
      the bounded [append].
    - The collaborators that are not part of Gateway.py (propagation and SNR
      models, distance, airtime, the constants of [LoRaParameters]) are the
      fields of the record [Externals]. *)

From Stdlib Require Import ZArith QArith Qround Qminmax Lia Lqa List.
From Stdlib Require Import PrimFloat FloatOps SpecFloat.
From stdpp Require Import base option list gmap.
Import ListNotations.

(** ** Exceptions and the gateway monad *)

Inductive exn : Type :=
  | KeyError
  | UnboundLocalError
  | ZeroDivisionError
  | ValueError.

Inductive outcome (A : Type) : Type :=
  | Ok (a : A)
  | Raise (e : exn).
Arguments Ok {A} a.
Arguments Raise {A} e.

Module PyM.
Definition t (S A : Type) : Type := S -> outcome A * S.

Definition ret {S A} (a : A) : t S A := fun s => (Ok a, s).

Definition bind {S A B} (m : t S A) (k : A -> t S B) : t S B :=
  fun s =>
    match m s with
    | (Ok a, s') => k a s'
    | (Raise e, s') => (Raise e, s')
    end.

Definition raise {S A} (e : exn) : t S A := fun s => (Raise e, s).

Definition gets {S A} (f : S -> A) : t S A := fun s => (Ok (f s), s).

Definition modify {S} (f : S -> S) : t S unit := fun s => (Ok tt, f s).

(** [d[k]] on a dictionary: the value, or the exception [e]. *)
Definition from_option {S A} (e : exn) (o : option A) : t S A :=
  match o with
  | Some a => ret a
  | None => raise e
  end.

Definition when {S} (b : bool) (m : t S unit) : t S unit :=
  if b then m else ret tt.
End PyM.

Declare Scope py_scope.
Delimit Scope py_scope with py.
Notation "'let*' x ':=' m 'in' k" := (PyM.bind m (fun x => k))
  (at level 10, x name, m at level 100, k at level 200) : py_scope.
Notation "'let*' ' pat ':=' m 'in' k" :=
  (PyM.bind m (fun x => match x with pat => k end))
  (at level 10, pat pattern, m at level 100, k at level 200) : py_scope.
Notation "m ';;' k" := (PyM.bind m (fun _ => k))
  (at level 100, k at level 200, right associativity) : py_scope.

(** ** Numbers *)

Definition Qlt_bool (a b : Q) : bool := negb (Qle_bool b a).

(** Python's [/] on numbers. *)
Definition py_div (a b : Q) : outcome Q :=
  if Qeq_bool b 0 then Raise ZeroDivisionError else Ok (a / b)%Q.

(** [np.round]: nearest integer, ties to the even neighbour. *)
Definition np_round (q : Q) : Z :=
  let f := Qfloor q in
  match (q - inject_Z f ?= 1 # 2)%Q with
  | Lt => f
  | Gt => (f + 1)%Z
  | Eq => if Z.even f then f else (f + 1)%Z
  end.

(** [np.amax(np.asanyarray(history))]; an empty array raises ValueError. *)
Definition np_amax (l : list Q) : outcome Q :=
  match l with
  | [] => Raise ValueError
  | x :: xs => Ok (fold_left Qmax xs x)
  end.

(** [m] is the largest sample of [h], up to the equality of rationals. *)
Definition max_snr_is (h : list Q) (m : Q) : Prop :=
  (exists x, In x h /\ (x == m)%Q) /\ forall x, In x h -> (x <= m)%Q.

(** ** collections.deque with a maximum length *)

(** [d.append(x)] on a [deque(maxlen=n)]: the element is added on the right
    and, when the deque was full, the leftmost one is dropped. *)
Definition deque_append (maxlen : nat) (d : list Q) (x : Q) : list Q :=
  let d' := d ++ [x] in
  drop (length d' - maxlen) d'.

Definition HISTORY_MAXLEN : nat := 20.

(** ** Data model *)

(** The radio parameters the gateway reads from a packet or a node. *)
Record LoRaParameters : Type := {
  freq : Z;
  sf : Z;
  dr : Z;
  tp : Z
}.

(** What Gateway.py imports and does not define. *)
Record Externals : Type := {
  Location : Type;
  (** [Location.distance] *)
  distance : Location -> Location -> Q;
  (** [prop_model.tp_to_rss] *)
  tp_to_rss : Z -> Q -> Q;
  (** [snr_model.rss_to_snr] *)
  rss_to_snr : Q -> Q;
  (** [LoRaPacket.time_on_air payload_size (LoRaParameters freq sf 125 5 1 0 1)] *)
  time_on_air : Z -> Z -> Z -> Q;
  (** The constants of [LoRaParameters]. *)
  CHANNELS : list Z;
  DEFAULT_CHANNELS : list Z;
  RX_2_DEFAULT_SF : Z;
  RX_2_DEFAULT_FREQ : Z;
  CHANNEL_DUTY_CYCLE_PROC : gmap Z Q;
  ADR_MARGIN_DB : Q
}.

Record Node (E : Externals) : Type := {
  node_id : Z;
  location : Location E;
  lora_param : LoRaParameters
}.
Arguments node_id {E} _.
Arguments location {E} _.
Arguments lora_param {E} _.

Record Packet : Type := {
  p_lora_param : LoRaParameters
}.

(** The fields of a [Gateway] object. *)
Record Gateway (E : Externals) : Type := {
  gw_location : Location E;
  packet_history : gmap Z (list Q);
  channel_time_used : gmap Z Q;
  downlink_packets_lost : list Packet;
  uplink_packet_weak : list Packet;
  num_of_packet_received : Z
}.
Arguments gw_location {E} _.
Arguments packet_history {E} _.
Arguments channel_time_used {E} _.
Arguments downlink_packets_lost {E} _.
Arguments uplink_packet_weak {E} _.
Arguments num_of_packet_received {E} _.

(** The dictionary [downlink_message]: a key that was not set is [None]. *)
Record DownlinkMessage : Type := {
  weak_packet : option bool;
  tx_on_rx1 : option bool;
  lost : option bool;
  msg_dr : option Z;
  msg_tp : option Z
}.

(** The dictionary [{'dr': new_dr, 'tp': new_tx_power}] that [adr] returns. *)
Record AdrSettings : Type := {
  adr_dr : Z;
  adr_tp : Z
}.

(** [Gateway.SENSITIVITY] *)
Definition SENSITIVITY : gmap Z Z :=
  list_to_map
    [(6, -121); (7, -124); (8, -127); (9, -130); (10, -133); (11, -135);
     (12, -137)]%Z.

Section gateway.
Context {E : Externals}.

Local Open Scope py_scope.

Abbreviation M := (PyM.t (Gateway E)).

(** *** Field updates *)

Definition set_packet_history (f : gmap Z (list Q) -> gmap Z (list Q))
    (g : Gateway E) : Gateway E :=
  {| gw_location := gw_location g;
     packet_history := f (packet_history g);
     channel_time_used := channel_time_used g;
     downlink_packets_lost := downlink_packets_lost g;
     uplink_packet_weak := uplink_packet_weak g;
     num_of_packet_received := num_of_packet_received g |}.

Definition set_channel_time_used (f : gmap Z Q -> gmap Z Q)
    (g : Gateway E) : Gateway E :=
  {| gw_location := gw_location g;
     packet_history := packet_history g;
     channel_time_used := f (channel_time_used g);
     downlink_packets_lost := downlink_packets_lost g;
     uplink_packet_weak := uplink_packet_weak g;
     num_of_packet_received := num_of_packet_received g |}.

Definition set_downlink_packets_lost (f : list Packet -> list Packet)
    (g : Gateway E) : Gateway E :=
  {| gw_location := gw_location g;
     packet_history := packet_history g;
     channel_time_used := channel_time_used g;
     downlink_packets_lost := f (downlink_packets_lost g);
     uplink_packet_weak := uplink_packet_weak g;
     num_of_packet_received := num_of_packet_received g |}.

Definition set_uplink_packet_weak (f : list Packet -> list Packet)
    (g : Gateway E) : Gateway E :=
  {| gw_location := gw_location g;
     packet_history := packet_history g;
     channel_time_used := channel_time_used g;
     downlink_packets_lost := downlink_packets_lost g;
     uplink_packet_weak := f (uplink_packet_weak g);
     num_of_packet_received := num_of_packet_received g |}.

Definition set_num_of_packet_received (f : Z -> Z)
    (g : Gateway E) : Gateway E :=
  {| gw_location := gw_location g;
     packet_history := packet_history g;
     channel_time_used := channel_time_used g;
     downlink_packets_lost := downlink_packets_lost g;
     uplink_packet_weak := uplink_packet_weak g;
     num_of_packet_received := f (num_of_packet_received g) |}.

(** *** Gateway.__init__ *)

Definition zero_channels (chs : list Z) (m : gmap Z Q) : gmap Z Q :=
  fold_left (fun acc channel => <[channel := 0%Q]> acc) chs m.

Definition init (loc : Location E) : Gateway E :=
  {| gw_location := loc;
     packet_history := ∅;
     channel_time_used :=
       zero_channels (DEFAULT_CHANNELS E) (zero_channels (CHANNELS E) ∅);
     downlink_packets_lost := [];
     uplink_packet_weak := [];
     num_of_packet_received := 0 |}.

(** [self.<field>[k]]: KeyError when the key is absent. *)
Definition getitem {A} (field : Gateway E -> gmap Z A) (k : Z) : M A :=
  let* d := PyM.gets field in
  PyM.from_option KeyError (d !! k).

(** *** Gateway.check_duty_cycle *)

Definition check_duty_cycle (payload_size sf freq : Z) (now : Q)
    : M (bool * Q) :=
  let toa := time_on_air E payload_size freq sf in
  let* used := getitem channel_time_used freq in
  if Qeq_bool used 0 then PyM.ret (true, toa)
  else
    let on_time := used in
    let new_on_time := (on_time + toa)%Q in
    let new_total_time := (now + toa)%Q in
    match py_div (on_time + toa) (now + toa) with
    | Raise e => PyM.raise e
    | Ok ratio =>
        let new_duty_cycle := (ratio * 100)%Q in
        let* cap := PyM.from_option KeyError
                      (CHANNEL_DUTY_CYCLE_PROC E !! freq) in
        PyM.ret (Qle_bool new_duty_cycle cap, toa)
    end.

(** *** Gateway.adr *)

(** The [if]/[elif] chain on the node's spreading factor: [None] when no
    branch assigns [adr_required_snr]. *)
Definition adr_required_snr (sf : Z) : option Q :=
  if (sf =? 7)%Z then Some (-(15 # 2))%Q
  else if (sf =? 8)%Z then Some (-(10))%Q
  else if (sf =? 9)%Z then Some (-(25 # 2))%Q
  else if (sf =? 10)%Z then Some (-(15))%Q
  else if (sf =? 11)%Z then Some (-(35 # 2))%Q
  else if (sf =? 12)%Z then Some (-(20))%Q
  else None.

(** Lines 141 to 167: from [num_steps] and the node's current settings to
    the returned dictionary. *)
Definition adr_adjust (num_steps current_dr current_tx_power : Z)
    : AdrSettings :=
  if (0 <? num_steps)%Z then
    let num_steps_possible_dr := (5 - current_dr)%Z in
    if (num_steps_possible_dr <? num_steps)%Z then
      let dr_changing := num_steps_possible_dr in
      let num_steps_remaining := (num_steps - num_steps_possible_dr)%Z in
      let decrease_tx_power := (num_steps_remaining * 3)%Z in
      let new_tx_power := Z.max (current_tx_power - decrease_tx_power) 2 in
      {| adr_dr := current_dr + dr_changing; adr_tp := new_tx_power |}
    else
      let dr_changing := num_steps in
      {| adr_dr := current_dr + dr_changing; adr_tp := current_tx_power |}
  else if (num_steps <? 0)%Z then
    let num_steps := (- num_steps)%Z in
    let new_tx_power := Z.min (current_tx_power + num_steps * 3) 14 in
    {| adr_dr := current_dr; adr_tp := new_tx_power |}
  else {| adr_dr := current_dr; adr_tp := current_tx_power |}.

(** [len(history) is 20] compares small integers, for which CPython's [is]
    agrees with [==].  The [print] under [Config.PRINT_ENABLED] changes
    nothing in the gateway and is left out. *)
Definition adr (from_node : Node E) (packet : Packet)
    : M (option AdrSettings) :=
  let* history := getitem packet_history (node_id from_node) in
  if (length history =? 20)%nat then
    match np_amax history with
    | Raise e => PyM.raise e
    | Ok max_snr =>
        let* required := PyM.from_option UnboundLocalError
                           (adr_required_snr (sf (lora_param from_node))) in
        let snr_margin := (max_snr - required - ADR_MARGIN_DB E)%Q in
        let num_steps := np_round (snr_margin / 3) in
        PyM.ret (Some (adr_adjust num_steps (dr (lora_param from_node))
                         (tp (lora_param from_node))))
    end
  else PyM.ret None.
(** *** Gateway.packet_received *)

Definition weak_message : DownlinkMessage :=
  {| weak_packet := Some true; tx_on_rx1 := None; lost := None;
     msg_dr := None; msg_tp := None |}.

(** [self.channel_time_used[freq] += time_on_air] *)
Definition add_channel_time (freq : Z) (time_on_air : Q) : M unit :=
  let* used := getitem channel_time_used freq in
  PyM.modify (set_channel_time_used <[freq := (used + time_on_air)%Q]>).

(** Lines 61 to 84: the two flags, and the packet recorded when the
    downlink is lost. *)
Definition select_window (packet : Packet) (possible_rx1 possible_rx2 : bool)
    : M (bool * bool) :=
  if (3 <? dr (p_lora_param packet))%Z then
    if negb possible_rx1 then
      if negb possible_rx2 then
        PyM.modify (set_downlink_packets_lost (fun l => l ++ [packet])) ;;
        PyM.ret (false, true)
      else PyM.ret (false, false)
    else PyM.ret (true, false)
  else
    if negb possible_rx2 then
      if negb possible_rx1 then
        PyM.modify (set_downlink_packets_lost (fun l => l ++ [packet])) ;;
        PyM.ret (false, true)
      else PyM.ret (true, false)
    else PyM.ret (false, false).

(** Lines 54 to 98: ADR, the duty-cycle checks of both windows, the choice
    of the window and the returned dictionary. *)
Definition downlink_decision (from_node : Node E) (packet : Packet) (now : Q)
    : M DownlinkMessage :=
  let* adr_settings := adr from_node packet in
  let* '(possible_rx1, time_on_air_rx1) :=
    check_duty_cycle 12 (sf (p_lora_param packet))
      (freq (p_lora_param packet)) now in
  let* '(possible_rx2, time_on_air_rx2) :=
    check_duty_cycle 12 (RX_2_DEFAULT_SF E) (RX_2_DEFAULT_FREQ E) now in
  let* '(tx_on_rx1, lost) :=
    select_window packet possible_rx1 possible_rx2 in
  (if negb lost then
     if tx_on_rx1 then
       add_channel_time (freq (p_lora_param packet)) time_on_air_rx1
     else add_channel_time (RX_2_DEFAULT_FREQ E) time_on_air_rx2
   else PyM.ret tt) ;;
  PyM.ret {| weak_packet := None;
             tx_on_rx1 := Some tx_on_rx1;
             lost := Some lost;
             msg_dr := adr_dr <$> adr_settings;
             msg_tp := adr_tp <$> adr_settings |}.

(** [rss] of line 43. *)
Definition received_strength (g : Gateway E) (from_node : Node E)
    (packet : Packet) : Q :=
  tp_to_rss E (tp (p_lora_param packet))
    (distance E (gw_location g) (location from_node)).

Definition packet_received (from_node : Node E) (packet : Packet) (now : Q)
    : M DownlinkMessage :=
  let* histories := PyM.gets packet_history in
  PyM.when (negb (bool_decide (is_Some (histories !! node_id from_node))))
    (PyM.modify (set_packet_history <[node_id from_node := []]>)) ;;
  let* rss := PyM.gets (fun self => received_strength self from_node packet) in
  let* threshold := PyM.from_option KeyError
                      (SENSITIVITY !! sf (p_lora_param packet)) in
  if Qlt_bool rss (inject_Z threshold) then
    PyM.modify (set_uplink_packet_weak (fun l => l ++ [packet])) ;;
    PyM.ret weak_message
  else
    PyM.modify (set_num_of_packet_received Z.succ) ;;
    let snr := rss_to_snr E rss in
    let* history := getitem packet_history (node_id from_node) in
    PyM.modify (set_packet_history
                  <[node_id from_node :=
                      deque_append HISTORY_MAXLEN history snr]>) ;;
    downlink_decision from_node packet now.

(** The gateway after a sequence of arrivals, whatever each call returned
    or raised. *)
Definition arrival (g : Gateway E) (ev : Node E * Packet * Q) : Gateway E :=
  let '(from_node, packet, now) := ev in
  snd (packet_received from_node packet now g).

Definition arrivals (evs : list (Node E * Packet * Q)) (g : Gateway E)
    : Gateway E :=
  fold_left arrival evs g.

(** *** Gateway.log *)

(** What [log] prints, one constructor per [print] call; percentages are
    kept as numbers, before the two-decimal formatting. *)
Inductive log_line : Type :=
  | LogGateway
  | LogReceived (n : Z)
  | LogLost (n : nat)
  | LogLostRatio (percent : Q)
  | LogChannel (channel : Z) (percent : Q)
  | LogWeakRatio (percent : Q).

(** A ratio line guarded by [len(l) != 0 and self.num_of_packet_received != 0]. *)
Definition log_ratio (mk : Q -> log_line) (l : list Packet) (received : Z)
    : list log_line * outcome unit :=
  if negb (length l =? 0)%nat && negb (received =? 0)%Z then
    match py_div (inject_Z (Z.of_nat (length l))) (inject_Z received) with
    | Raise e => ([], Raise e)
    | Ok ratio => ([mk (ratio * 100)%Q], Ok tt)
    end
  else ([], Ok tt).

(** The loop [for channel in self.channel_time_used]. *)
Fixpoint log_channels (entries : list (Z * Q)) (env_now : Q)
    : list log_line * outcome unit :=
  match entries with
  | [] => ([], Ok tt)
  | (channel, used) :: rest =>
      match py_div used env_now with
      | Raise e => ([], Raise e)
      | Ok time_on_ratio =>
          let '(printed, r) := log_channels rest env_now in
          (LogChannel channel (time_on_ratio * 100)%Q :: printed, r)
      end
  end.

(** Sequencing of printing steps: the lines printed so far are kept when a
    step raises. *)
Definition log_seq (a b : list log_line * outcome unit)
    : list log_line * outcome unit :=
  match a with
  | (printed, Ok _) => (printed ++ fst b, snd b)
  | (printed, Raise e) => (printed, Raise e)
  end.

(** [env_now] is [self.env.now] when [log] is called.  The channels are
    visited in the order of [map_to_list]; Python visits them in insertion
    order, which only changes the order of the channel lines. *)
Definition log (g : Gateway E) (env_now : Q) : list log_line * outcome unit :=
  log_seq
    ([LogGateway; LogReceived (num_of_packet_received g);
      LogLost (length (downlink_packets_lost g))], Ok tt)
    (log_seq
       (log_ratio LogLostRatio (downlink_packets_lost g)
          (num_of_packet_received g))
       (log_seq
          (log_channels (map_to_list (channel_time_used g)) env_now)
          (log_ratio LogWeakRatio (uplink_packet_weak g)
             (num_of_packet_received g)))).
End gateway.

(** ** States and values the properties speak about *)

(** The last [n] elements of a list. *)
Definition keep_last (n : nat) (l : list Q) : list Q :=
  drop (length l - n) l.

Section observations.
Context {E : Externals}.

(** The SNR samples held for a transmitter; none when it is unknown. *)
Definition samples (g : Gateway E) (id : Z) : list Q :=
  default [] (packet_history g !! id).

(** Every history respects the capacity of its deque. *)
Definition histories_bounded (g : Gateway E) : Prop :=
  forall id h, packet_history g !! id = Some h ->
               (length h <= HISTORY_MAXLEN)%nat.

(** The gateway after lines 41 and 42. *)
Definition with_history_entry (id : Z) (g : Gateway E) : Gateway E :=
  if bool_decide (is_Some (packet_history g !! id)) then g
  else set_packet_history <[id := []]> g.

(** The gateway after line 53: the packet is counted and its SNR is in the
    transmitter's history. *)
Definition record_sample (from_node : Node E) (packet : Packet)
    (g : Gateway E) : Gateway E :=
  let snr := rss_to_snr E (received_strength g from_node packet) in
  set_packet_history
    <[node_id from_node :=
        deque_append HISTORY_MAXLEN (samples g (node_id from_node)) snr]>
    (set_num_of_packet_received Z.succ
       (with_history_entry (node_id from_node) g)).

(** The link-budget filter lets the packet through. *)
Definition accepted (g : Gateway E) (from_node : Node E) (packet : Packet)
    : bool :=
  match SENSITIVITY !! sf (p_lora_param packet) with
  | Some threshold =>
      negb (Qlt_bool (received_strength g from_node packet)
              (inject_Z threshold))
  | None => false
  end.

(** The SNR sample an arrival contributes when it is accepted. *)
Definition sample_of (g : Gateway E) (ev : Node E * Packet * Q) : Q :=
  rss_to_snr E (received_strength g (fst (fst ev)) (snd (fst ev))).

(** The samples of the accepted arrivals of transmitter [id], in order. *)
Fixpoint heard (g : Gateway E) (id : Z) (evs : list (Node E * Packet * Q))
    : list Q :=
  match evs with
  | [] => []
  | ev :: evs' =>
      if accepted g (fst (fst ev)) (snd (fst ev))
         && bool_decide (node_id (fst (fst ev)) = id)
      then sample_of g ev :: heard g id evs'
      else heard g id evs'
  end.

(** The two flags of lines 61 to 84 as a function of the data rate and of
    the two admissibility results: [(tx_on_rx1, lost)]. *)
Definition window_flags (dr : Z) (possible_rx1 possible_rx2 : bool)
    : bool * bool :=
  if (3 <? dr)%Z then (possible_rx1, negb possible_rx1 && negb possible_rx2)
  else (negb possible_rx2 && possible_rx1,
        negb possible_rx2 && negb possible_rx1).

(** The gateway after lines 61 to 93, given the airtimes of both windows. *)
Definition commit_window (packet : Packet) (flags : bool * bool)
    (time_on_air_rx1 time_on_air_rx2 : Q) (g : Gateway E) : Gateway E :=
  let '(tx_on_rx1, lost) := flags in
  if lost then set_downlink_packets_lost (fun l => l ++ [packet]) g
  else
    let f := if tx_on_rx1 then freq (p_lora_param packet)
             else RX_2_DEFAULT_FREQ E in
    let t := if tx_on_rx1 then time_on_air_rx1 else time_on_air_rx2 in
    set_channel_time_used
      <[f := (default 0%Q (channel_time_used g !! f) + t)%Q]> g.

Definition decision_message (flags : bool * bool)
    (adr_settings : option AdrSettings) : DownlinkMessage :=
  {| weak_packet := None;
     tx_on_rx1 := Some (fst flags);
     lost := Some (snd flags);
     msg_dr := adr_dr <$> adr_settings;
     msg_tp := adr_tp <$> adr_settings |}.

End observations.

(** ** Runs of the gateway *)

Section runs.
Context {E : Externals}.

(** The link-budget filter rejects the packet (lines 44 to 48). *)
Definition too_weak (g : Gateway E) (from_node : Node E) (packet : Packet)
    : bool :=
  match SENSITIVITY !! sf (p_lora_param packet) with
  | Some threshold =>
      Qlt_bool (received_strength g from_node packet) (inject_Z threshold)
  | None => false
  end.

(** The packets of the arrivals that the filter rejects, in order. *)
Fixpoint weak_packets (g : Gateway E) (evs : list (Node E * Packet * Q))
    : list Packet :=
  match evs with
  | [] => []
  | ev :: evs' =>
      if too_weak g (fst (fst ev)) (snd (fst ev))
      then snd (fst ev) :: weak_packets g evs'
      else weak_packets g evs'
  end.

(** The number of arrivals that pass the filter. *)
Fixpoint accepted_count (g : Gateway E) (evs : list (Node E * Packet * Q))
    : nat :=
  match evs with
  | [] => 0
  | ev :: evs' =>
      if accepted g (fst (fst ev)) (snd (fst ev))
      then S (accepted_count g evs')
      else accepted_count g evs'
  end.

(** What each call of a sequence of arrivals returns or raises. *)
Fixpoint outcomes (evs : list (Node E * Packet * Q)) (g : Gateway E)
    : list (outcome DownlinkMessage) :=
  match evs with
  | [] => []
  | ev :: evs' =>
      fst (packet_received (fst (fst ev)) (snd (fst ev)) (snd ev) g)
      :: outcomes evs' (arrival g ev)
  end.

(** The airtimes of the two downlink windows of a packet. *)
Definition airtime_rx1 (packet : Packet) : Q :=
  time_on_air E 12 (freq (p_lora_param packet)) (sf (p_lora_param packet)).

Definition airtime_rx2 : Q :=
  time_on_air E 12 (RX_2_DEFAULT_FREQ E) (RX_2_DEFAULT_SF E).

End runs.
Arguments airtime_rx1 : clear implicits.
Arguments airtime_rx2 : clear implicits.

(** ** The numeric steps in double precision

    [adr] and [check_duty_cycle] decide by comparing computed numbers, and
    at a boundary the decision depends on the rounding of each operation.
    Here both are written on binary64 floats, the arithmetic of Python's
    [float] and of [np.float64], as functions of the values they read: the
    two dictionaries, the node's settings and the constants of
    [LoRaParameters].

    After [np.round] the code computes on integral doubles and Python
    integers.  For a data rate and a transmit power of at most 31 bits that
    arithmetic is exact, or ends in the clamp to 2 or 14, and it is written
    on integers as in [adr_adjust]. *)

Module Double.

(** The rational that the finite double with sign [s], mantissa [m] and
    exponent [e] denotes. *)
Definition exact (s : bool) (m : positive) (e : Z) : Q :=
  (inject_Z (if s then Z.neg m else Z.pos m) * Qpower 2 e)%Q.

(** What [np.round] returns: an integral double, an infinity or NaN. *)
Inductive rounded : Type :=
  | Steps (n : Z)
  | PlusInfinity
  | MinusInfinity
  | NotANumber.

(** [np.round] of a double; the rounding of its exact value is the
    [np_round] defined above. *)
Definition np_round (x : float) : rounded :=
  match Prim2SF x with
  | S754_zero _ => Steps 0
  | S754_finite s m e => Steps (np_round (exact s m e))
  | S754_infinity false => PlusInfinity
  | S754_infinity true => MinusInfinity
  | S754_nan => NotANumber
  end.

Definition fmax (a b : float) : float := if PrimFloat.ltb a b then b else a.

(** [np.amax]: NaN when a sample is NaN, else the largest sample. *)
Definition np_amax (l : list float) : outcome float :=
  match l with
  | [] => Raise ValueError
  | x :: xs =>
      Ok (if existsb PrimFloat.is_nan l then PrimFloat.nan
          else fold_left fmax xs x)
  end.

(** Lines 119 to 130. *)
Definition adr_required_snr (sf : Z) : option float :=
  if (sf =? 7)%Z then Some (-7.5)%float
  else if (sf =? 8)%Z then Some (-10)%float
  else if (sf =? 9)%Z then Some (-12.5)%float
  else if (sf =? 10)%Z then Some (-15)%float
  else if (sf =? 11)%Z then Some (-17.5)%float
  else if (sf =? 12)%Z then Some (-20)%float
  else None.

(** Lines 141 to 167.  An infinite [num_steps] is larger (smaller) than
    every integer, and the power ends at its clamp; NaN fails both
    comparisons with 0. *)
Definition adr_adjust (num_steps : rounded) (current_dr current_tx_power : Z)
    : AdrSettings :=
  match num_steps with
  | Steps n => adr_adjust n current_dr current_tx_power
  | PlusInfinity =>
      let num_steps_possible_dr := (5 - current_dr)%Z in
      {| adr_dr := current_dr + num_steps_possible_dr; adr_tp := 2 |}
  | MinusInfinity => {| adr_dr := current_dr; adr_tp := 14 |}
  | NotANumber => {| adr_dr := current_dr; adr_tp := current_tx_power |}
  end.

(** [Gateway.adr] on [self.packet_history], the node's id, spreading
    factor, data rate and power, and [LoRaParameters.ADR_MARGIN_DB]. *)
Definition adr (packet_history : gmap Z (list float))
    (node_id sf dr tp : Z) (ADR_MARGIN_DB : float)
    : outcome (option AdrSettings) :=
  match packet_history !! node_id with
  | None => Raise KeyError
  | Some history =>
      if (length history =? 20)%nat then
        match np_amax history with
        | Raise e => Raise e
        | Ok max_snr =>
            match adr_required_snr sf with
            | None => Raise UnboundLocalError
            | Some required =>
                let snr_margin :=
                  (max_snr - required - ADR_MARGIN_DB)%float in
                let num_steps := np_round (snr_margin / 3)%float in
                Ok (Some (adr_adjust num_steps dr tp))
            end
        end
      else Ok None
  end.

(** [Gateway.check_duty_cycle] on [self.channel_time_used],
    [LoRaParameters.CHANNEL_DUTY_CYCLE_PROC] and the airtime estimator. *)
Definition check_duty_cycle (channel_time_used : gmap Z float)
    (CHANNEL_DUTY_CYCLE_PROC : gmap Z float)
    (time_on_air : Z -> Z -> Z -> float)
    (payload_size sf freq : Z) (now : float) : outcome (bool * float) :=
  let toa := time_on_air payload_size freq sf in
  match channel_time_used !! freq with
  | None => Raise KeyError
  | Some used =>
      if PrimFloat.eqb used 0 then Ok (true, toa)
      else
        let on_time := used in
        let new_on_time := (on_time + toa)%float in
        let new_total_time := (now + toa)%float in
        if PrimFloat.eqb new_total_time 0 then Raise ZeroDivisionError
        else
          let new_duty_cycle :=
            ((on_time + toa) / (now + toa) * 100)%float in
          match CHANNEL_DUTY_CYCLE_PROC !! freq with
          | None => Raise KeyError
          | Some cap => Ok (PrimFloat.leb new_duty_cycle cap, toa)
          end
  end.

End Double.

(** [n] is the integer nearest to [v], the even one of the two at a tie. *)
Definition nearest_even (v : Q) (n : Z) : Prop :=
  (inject_Z n - (1 # 2) <= v)%Q
  /\ (v <= inject_Z n + (1 # 2))%Q
  /\ ((v == inject_Z n - (1 # 2))%Q \/ (v == inject_Z n + (1 # 2))%Q ->
      Z.even n = true).

(** The double [x] is finite and rounds to the integer [n]. *)
Definition double_rounds_to (x : float) (n : Z) : Prop :=
  match Prim2SF x with
  | S754_zero _ => n = 0%Z
  | S754_finite s m e =>
      nearest_even
        (inject_Z (if s then Z.neg m else Z.pos m) * Qpower 2 e)%Q n
  | _ => False
  end.

(** Scenario 2 in doubles. *)
Definition scenario2_doubles : list float :=
  [-3; 1; 5; 2; 0; -1; 4; 3; 5; 2; 1; 0; -2; 4; 3; 2; 1; 5; 0; -4]%float.

(** Twenty samples one unit in the last place below 8 dB. *)
Definition below8_doubles : list float :=
  repeat 0x1.fffffffffffffp+2%float 20.

(** An airtime of 2 s for every transmission, and two EU868 caps. *)
Definition two_seconds (payload_size freq sf : Z) : float := 2%float.

Definition eu868_caps : gmap Z float :=
  list_to_map [(868100000%Z, 1%float); (869525000%Z, 10%float)].

(** ** A test configuration

    Nodes on a line, a linear path loss, EU868-like channels with the RX2
    channel registered, and the usual ADR margin of 10 dB.  It is used to
    run the model on concrete inputs. *)

Definition line_world : Externals :=
  {| Location := Z;
     distance := fun a b => inject_Z (Z.abs (a - b));
     tp_to_rss := fun tp d => (inject_Z tp - 100 - d / 100)%Q;
     rss_to_snr := fun rss => (rss + 120)%Q;
     time_on_air := fun payload_size _ sf => (inject_Z (payload_size * sf) / 100)%Q;
     CHANNELS := [868100000; 868300000; 868500000; 869525000]%Z;
     DEFAULT_CHANNELS := [868100000; 868300000; 868500000]%Z;
     RX_2_DEFAULT_SF := 12;
     RX_2_DEFAULT_FREQ := 869525000;
     CHANNEL_DUTY_CYCLE_PROC :=
       list_to_map [(868100000%Z, 1%Q); (868300000%Z, 1%Q);
                    (868500000%Z, 1%Q); (869525000%Z, 10%Q)];
     ADR_MARGIN_DB := 10 |}.

Definition test_node (id position sf dr tp : Z) : Node line_world :=
  {| node_id := id;
     location := position : Location line_world;
     lora_param := {| freq := 868100000; sf := sf; dr := dr; tp := tp |} |}.

Definition test_packet (freq sf dr tp : Z) : Packet :=
  {| p_lora_param := {| freq := freq; sf := sf; dr := dr; tp := tp |} |}.

Definition test_gateway : Gateway line_world := init (0%Z : Location line_world).

(** A gateway that has heard node 1 twenty times, best SNR 5 dB. *)
Definition scenario2_history : list Q :=
  [-3; 1; 5; 2; 0; -1; 4; 3; 5; 2; 1; 0; -2; 4; 3; 2; 1; 5; 0; -4]%Q.

Definition scenario2_gateway : Gateway line_world :=
  set_packet_history <[1%Z := scenario2_history]> test_gateway.

(** An SF6 node 1 km away, heard nineteen times by a new gateway. *)
Definition sf6_node : Node line_world := test_node 7 1000 6 0 14.

Definition sf6_packet : Packet := test_packet 868100000 6 0 14.

Definition sf6_gateway : Gateway line_world :=
  arrivals (repeat (sf6_node, sf6_packet, 1000%Q) 19) test_gateway.

(** Scenario 1: SF10 at 5.4 km, received at -140 dBm. *)
Definition weak_node : Node line_world := test_node 2 5400 10 0 14.

Definition weak_packet_sf10 : Packet := test_packet 868100000 10 0 14.

(** Scenario 3: 5 s already used on a 1 % channel. *)
Definition scenario3_gateway : Gateway line_world :=
  set_channel_time_used <[868100000%Z := 5%Q]> test_gateway.

(** Node 1 sends 21 packets with transmit powers 0, 1, ..., 20 dBm. *)
Definition burst : list (Node line_world * Packet * Q) :=
  map (fun k => (test_node 1 1000 9 2 14,
                 test_packet 868100000 9 2 (Z.of_nat k),
                 inject_Z (1000 + Z.of_nat k)))
      (seq 0 21).

(** Three arrivals of node 1, one second apart. *)
Definition short_burst : list (Node line_world * Packet * Q) :=
  [(test_node 1 1000 9 2 14, test_packet 868100000 9 2 0, 1000%Q);
   (test_node 1 1000 9 2 14, test_packet 868100000 9 2 1, 1001%Q);
   (test_node 1 1000 9 2 14, test_packet 868100000 9 2 2, 1002%Q)].

(** Node 1 heard twenty times at 11 dB. *)
Definition strong_history : list Q := repeat 11%Q 20.

Definition strong_gateway : Gateway line_world :=
  set_packet_history <[1%Z := strong_history]> test_gateway.

(** Node 1 as in scenario 2, and the same node 1 km away at data rate 5. *)
Definition scenario2_node : Node line_world := test_node 1 0 9 2 14.

Definition near_node : Node line_world := test_node 1 1000 9 5 14.

Definition near_packet : Packet := test_packet 868100000 9 5 14.

(** A packet with spreading factor 5, which has no sensitivity threshold. *)
Definition sf5_packet : Packet := test_packet 868100000 5 0 14.

(** ** Properties *)

(** *** Rounding and maximum *)

Lemma np_round_comp (q q' : Q) : (q == q')%Q -> np_round q = np_round q'.
Proof.
  intros Heq. unfold np_round.
  rewrite (Qfloor_comp _ _ Heq).
  assert (Hc : (q - inject_Z (Qfloor q') ?= 1 # 2)%Q
               = (q' - inject_Z (Qfloor q') ?= 1 # 2)%Q).
  { apply Qcompare_comp; [rewrite Heq|]; reflexivity. }
  rewrite Hc. reflexivity.
Qed.

Example np_round_ties :
  np_round (1 # 2) = 0%Z /\ np_round (3 # 2) = 2%Z /\ np_round (5 # 2) = 2%Z
  /\ np_round (7 # 2) = 4%Z /\ np_round (-(5 # 2)) = (-2)%Z
  /\ np_round (-(3 # 2)) = (-2)%Z /\ np_round (13 # 5) = 3%Z
  /\ np_round (12 # 5) = 2%Z.
Proof. repeat split. Qed.

Lemma Qmax_cases (a b : Q) : Qmax a b = a \/ Qmax a b = b.
Proof.
  unfold Qmax, GenericMinMax.gmax. destruct (a ?= b)%Q; auto.
Qed.

Lemma fold_Qmax_ge (l : list Q) (a : Q) : (a <= fold_left Qmax l a)%Q.
Proof.
  revert a. induction l as [|x l IH]; intros a; simpl.
  - apply Qle_refl.
  - eapply Qle_trans; [apply (Q.le_max_l a x) | apply IH].
Qed.

Lemma fold_Qmax_upper (l : list Q) (a x : Q) :
  In x l -> (x <= fold_left Qmax l a)%Q.
Proof.
  revert a. induction l as [|y l IH]; intros a Hin; simpl in *.
  - contradiction.
  - destruct Hin as [-> | Hin].
    + eapply Qle_trans; [apply (Q.le_max_r a x) | apply fold_Qmax_ge].
    + apply IH, Hin.
Qed.

Lemma fold_Qmax_In (l : list Q) (a : Q) :
  fold_left Qmax l a = a \/ In (fold_left Qmax l a) l.
Proof.
  revert a. induction l as [|y l IH]; intros a; simpl.
  - now left.
  - destruct (IH (Qmax a y)) as [H | H].
    + rewrite H. destruct (Qmax_cases a y) as [-> | ->]; auto.
    + auto.
Qed.

(** [np_amax] returns an element of the array that bounds all the others. *)
Lemma np_amax_spec (l : list Q) :
  l <> [] ->
  exists m, np_amax l = Ok m /\ In m l /\ forall x, In x l -> (x <= m)%Q.
Proof.
  destruct l as [|a l]; [congruence | intros _].
  exists (fold_left Qmax l a). split; [reflexivity | split].
  - destruct (fold_Qmax_In l a) as [-> | H]; simpl; auto.
  - intros x [<- | Hin]; [apply fold_Qmax_ge | now apply fold_Qmax_upper].
Qed.

Lemma np_amax_max_snr (h : list Q) (m : Q) :
  max_snr_is h m -> exists m', np_amax h = Ok m' /\ (m' == m)%Q.
Proof.
  intros [(x & Hx & Hxm) Hub].
  destruct (np_amax_spec h) as (m' & Hm' & Hin & Hmax).
  { intros ->. contradiction. }
  exists m'. split; [exact Hm' |].
  apply Qle_antisym; [now apply Hub |].
  rewrite <- Hxm. now apply Hmax.
Qed.

(** *** The ADR controller *)

Section adr_properties.
Context {E : Externals}.

Lemma getitem_some {A} (field : Gateway E -> gmap Z A) (k : Z) (g : Gateway E)
    (a : A) :
  field g !! k = Some a -> getitem field k g = (Ok a, g).
Proof. intros H. unfold getitem, PyM.bind, PyM.gets. now rewrite H. Qed.

Lemma getitem_none {A} (field : Gateway E -> gmap Z A) (k : Z)
    (g : Gateway E) :
  field g !! k = None -> getitem field k g = (Raise KeyError, g).
Proof. intros H. unfold getitem, PyM.bind, PyM.gets. now rewrite H. Qed.

Lemma getitem_frame {A} (field : Gateway E -> gmap Z A) (k : Z)
    (g : Gateway E) :
  snd (getitem field k g) = g.
Proof.
  destruct (field g !! k) eqn:H;
    [erewrite getitem_some | erewrite getitem_none]; eauto.
Qed.

(** [adr] only reads the gateway. *)
Lemma adr_frame (from_node : Node E) (packet : Packet) (g : Gateway E) :
  snd (adr from_node packet g) = g.
Proof.
  unfold adr, PyM.bind.
  destruct (getitem packet_history (node_id from_node) g) as [[h|e] g'] eqn:Hg.
  - pose proof (getitem_frame packet_history (node_id from_node) g) as Hf.
    rewrite Hg in Hf; simpl in Hf; subst g'.
    destruct (length h =? 20)%nat; [|reflexivity].
    destruct (np_amax h); [|reflexivity].
    destruct (adr_required_snr _); reflexivity.
  - pose proof (getitem_frame packet_history (node_id from_node) g) as Hf.
    now rewrite Hg in Hf.
Qed.

Lemma adr_unknown_node (from_node : Node E) (packet : Packet) (g : Gateway E) :
  packet_history g !! node_id from_node = None ->
  adr from_node packet g = (Raise KeyError, g).
Proof.
  intros H. unfold adr, PyM.bind. now rewrite (getitem_none _ _ _ H).
Qed.

Lemma adr_not_full (from_node : Node E) (packet : Packet) (g : Gateway E)
    (h : list Q) :
  packet_history g !! node_id from_node = Some h ->
  length h <> 20%nat ->
  adr from_node packet g = (Ok None, g).
Proof.
  intros H Hlen. unfold adr, PyM.bind. rewrite (getitem_some _ _ _ _ H).
  apply Nat.eqb_neq in Hlen. now rewrite Hlen.
Qed.

Lemma adr_full (from_node : Node E) (packet : Packet) (g : Gateway E)
    (h : list Q) (max_snr required : Q) :
  packet_history g !! node_id from_node = Some h ->
  length h = 20%nat ->
  np_amax h = Ok max_snr ->
  adr_required_snr (sf (lora_param from_node)) = Some required ->
  adr from_node packet g =
    (Ok (Some (adr_adjust
                 (np_round ((max_snr - required - ADR_MARGIN_DB E) / 3))
                 (dr (lora_param from_node)) (tp (lora_param from_node)))),
     g).
Proof.
  intros H Hlen Hmax Hreq. unfold adr, PyM.bind.
  rewrite (getitem_some _ _ _ _ H), Hlen, Hmax, Hreq. reflexivity.
Qed.

Lemma adr_unbound (from_node : Node E) (packet : Packet) (g : Gateway E)
    (h : list Q) :
  packet_history g !! node_id from_node = Some h ->
  length h = 20%nat ->
  adr_required_snr (sf (lora_param from_node)) = None ->
  adr from_node packet g = (Raise UnboundLocalError, g).
Proof.
  intros H Hlen Hreq. unfold adr, PyM.bind.
  rewrite (getitem_some _ _ _ _ H), Hlen.
  destruct (np_amax_spec h) as (m & Hm & _).
  { intros ->. discriminate. }
  rewrite Hm, Hreq. reflexivity.
Qed.

Lemma adr_required_snr_some (s : Z) :
  (7 <= s <= 12)%Z -> exists required, adr_required_snr s = Some required.
Proof.
  intros Hs. unfold adr_required_snr.
  repeat (match goal with
          | |- context [(?a =? ?b)%Z] => destruct (Z.eqb_spec a b)
          end; eauto).
  lia.
Qed.

Lemma adr_required_snr_none (s : Z) :
  ~ (7 <= s <= 12)%Z -> adr_required_snr s = None.
Proof.
  intros Hs. unfold adr_required_snr.
  repeat (match goal with
          | |- context [(?a =? ?b)%Z] => destruct (Z.eqb_spec a b)
          end; try lia).
  reflexivity.
Qed.

End adr_properties.

Example adr_required_snr_table :
  adr_required_snr 7 = Some (-(15 # 2))%Q
  /\ adr_required_snr 8 = Some (-(10))%Q
  /\ adr_required_snr 9 = Some (-(25 # 2))%Q
  /\ adr_required_snr 10 = Some (-(15))%Q
  /\ adr_required_snr 11 = Some (-(35 # 2))%Q
  /\ adr_required_snr 12 = Some (-(20))%Q.
Proof. repeat split. Qed.

(** Under the bound on the history length, [adr] returns [None] exactly on
    the histories that are not yet full. *)
Lemma adr_no_proposal_iff {E : Externals} (from_node : Node E)
    (packet : Packet) (g : Gateway E) (h : list Q) :
  packet_history g !! node_id from_node = Some h ->
  (length h <= 20)%nat ->
  (adr from_node packet g = (Ok None, g) <-> (length h < 20)%nat).
Proof.
  intros H Hle. split.
  - intros Hadr. destruct (Nat.eq_dec (length h) 20) as [Heq | Hne]; [|lia].
    exfalso. unfold adr, PyM.bind in Hadr.
    rewrite (getitem_some _ _ _ _ H), Heq in Hadr. simpl in Hadr.
    destruct (np_amax h); [|discriminate].
    unfold PyM.from_option in Hadr.
    destruct (adr_required_snr _); discriminate.
  - intros Hlt. eapply adr_not_full; [exact H | lia].
Qed.

(** C1 (amended).  Scenario 2: a 20-sample history with maximum 5 dB,
    spreading factor 9 (required SNR -12.5), margin 10 dB, data rate 2 and
    power 14: the margin is 7.5, 7.5 / 3 is the tie 2.5, which rounds to the
    even neighbour 2, and the proposal is data rate 4 with power 14. *)
Theorem adr_scenario2 {E : Externals} (from_node : Node E) (packet : Packet)
    (g : Gateway E) (h : list Q) :
  packet_history g !! node_id from_node = Some h ->
  length h = 20%nat ->
  max_snr_is h 5 ->
  sf (lora_param from_node) = 9%Z ->
  (ADR_MARGIN_DB E == 10)%Q ->
  dr (lora_param from_node) = 2%Z ->
  tp (lora_param from_node) = 14%Z ->
  adr_required_snr 9 = Some (-(25 # 2))%Q
  /\ (5 - -(25 # 2) - 10 == 15 # 2)%Q
  /\ np_round ((15 # 2) / 3) = 2%Z
  /\ adr from_node packet g = (Ok (Some {| adr_dr := 4; adr_tp := 14 |}), g).
Proof.
  intros H Hlen Hmax Hsf Hmargin Hdr Htp.
  repeat split.
  destruct (np_amax_max_snr h 5 Hmax) as (m & Hm & Hm5).
  erewrite adr_full; [| exact H | exact Hlen | exact Hm | now rewrite Hsf].
  rewrite Hdr, Htp.
  rewrite (np_round_comp _ ((15 # 2) / 3)).
  - reflexivity.
  - rewrite Hm5, Hmargin. reflexivity.
Qed.

(** C10.  Spreading factor 6 has a sensitivity threshold, but no branch of
    the required-SNR chain: on a full history [adr] reads the unbound
    variable and raises. *)
Theorem adr_sf6_raises {E : Externals} (from_node : Node E) (packet : Packet)
    (g : Gateway E) (h : list Q) :
  packet_history g !! node_id from_node = Some h ->
  length h = 20%nat ->
  sf (lora_param from_node) = 6%Z ->
  SENSITIVITY !! 6%Z = Some (-121)%Z
  /\ adr_required_snr 6 = None
  /\ adr from_node packet g = (Raise UnboundLocalError, g).
Proof.
  intros H Hlen Hsf. repeat split.
  eapply adr_unbound; [exact H | exact Hlen | now rewrite Hsf].
Qed.

(** *** The duty-cycle check *)

Section duty_cycle_properties.
Context {E : Externals}.

Lemma Qeq_bool_false (a b : Q) : ~ (a == b)%Q -> Qeq_bool a b = false.
Proof.
  intros H. destruct (Qeq_bool a b) eqn:Hb; [|reflexivity].
  apply Qeq_bool_iff in Hb. contradiction.
Qed.

Lemma check_duty_cycle_unknown_channel (payload_size sf freq : Z) (now : Q)
    (g : Gateway E) :
  channel_time_used g !! freq = None ->
  check_duty_cycle payload_size sf freq now g = (Raise KeyError, g).
Proof.
  intros H. unfold check_duty_cycle, PyM.bind.
  now rewrite (getitem_none _ _ _ H).
Qed.

Lemma check_duty_cycle_unused (payload_size sf freq : Z) (now : Q)
    (g : Gateway E) (used : Q) :
  channel_time_used g !! freq = Some used ->
  (used == 0)%Q ->
  check_duty_cycle payload_size sf freq now g =
    (Ok (true, time_on_air E payload_size freq sf), g).
Proof.
  intros H H0. unfold check_duty_cycle, PyM.bind.
  rewrite (getitem_some _ _ _ _ H).
  apply Qeq_bool_iff in H0. now rewrite H0.
Qed.

Lemma check_duty_cycle_zero_division (payload_size sf freq : Z) (now : Q)
    (g : Gateway E) (used : Q) :
  channel_time_used g !! freq = Some used ->
  ~ (used == 0)%Q ->
  (now + time_on_air E payload_size freq sf == 0)%Q ->
  check_duty_cycle payload_size sf freq now g = (Raise ZeroDivisionError, g).
Proof.
  intros H H0 Hden. unfold check_duty_cycle, PyM.bind.
  rewrite (getitem_some _ _ _ _ H), (Qeq_bool_false _ _ H0).
  unfold py_div. apply Qeq_bool_iff in Hden. now rewrite Hden.
Qed.

Lemma check_duty_cycle_used (payload_size sf freq : Z) (now : Q)
    (g : Gateway E) (used cap : Q) :
  channel_time_used g !! freq = Some used ->
  ~ (used == 0)%Q ->
  ~ (now + time_on_air E payload_size freq sf == 0)%Q ->
  CHANNEL_DUTY_CYCLE_PROC E !! freq = Some cap ->
  let toa := time_on_air E payload_size freq sf in
  check_duty_cycle payload_size sf freq now g =
    (Ok (Qle_bool ((used + toa) / (now + toa) * 100) cap, toa), g).
Proof.
  intros H H0 Hden Hcap. unfold check_duty_cycle, PyM.bind.
  rewrite (getitem_some _ _ _ _ H), (Qeq_bool_false _ _ H0).
  unfold py_div. rewrite (Qeq_bool_false _ _ Hden).
  unfold PyM.from_option. now rewrite Hcap.
Qed.

(** [check_duty_cycle] only reads the gateway. *)
Lemma check_duty_cycle_frame (payload_size sf freq : Z) (now : Q)
    (g : Gateway E) :
  snd (check_duty_cycle payload_size sf freq now g) = g.
Proof.
  unfold check_duty_cycle, PyM.bind.
  destruct (getitem channel_time_used freq g) as [[used|e] g'] eqn:Hg;
    pose proof (getitem_frame channel_time_used freq g) as Hf;
    rewrite Hg in Hf; simpl in Hf; subst g'; [|reflexivity].
  destruct (Qeq_bool used 0); [reflexivity |].
  destruct (py_div _ _); [|reflexivity].
  unfold PyM.from_option.
  destruct (CHANNEL_DUTY_CYCLE_PROC E !! freq); reflexivity.
Qed.

(** Its result depends on the gateway through the ledger only. *)
Lemma check_duty_cycle_ledger (payload_size sf freq : Z) (now : Q)
    (g g' : Gateway E) :
  channel_time_used g = channel_time_used g' ->
  fst (check_duty_cycle payload_size sf freq now g) =
  fst (check_duty_cycle payload_size sf freq now g').
Proof.
  intros Heq. unfold check_duty_cycle, getitem, PyM.bind, PyM.gets.
  rewrite Heq.
  destruct (channel_time_used g' !! freq) as [used|]; simpl; [|reflexivity].
  destruct (Qeq_bool used 0); [reflexivity |].
  destruct (py_div _ _); [|reflexivity].
  unfold PyM.from_option.
  destruct (CHANNEL_DUTY_CYCLE_PROC E !! freq); reflexivity.
Qed.

(** A check that returns has found the channel in the ledger, and reports
    the airtime of the candidate transmission. *)
Lemma check_duty_cycle_ok (payload_size sf freq : Z) (now : Q)
    (g : Gateway E) (possible : bool) (toa : Q) :
  fst (check_duty_cycle payload_size sf freq now g) = Ok (possible, toa) ->
  toa = time_on_air E payload_size freq sf
  /\ exists used, channel_time_used g !! freq = Some used.
Proof.
  unfold check_duty_cycle, getitem, PyM.bind, PyM.gets.
  destruct (channel_time_used g !! freq) as [used|]; simpl; [|discriminate].
  intros H. split; [|eauto].
  destruct (Qeq_bool used 0); [simpl in H; congruence |].
  destruct (py_div _ _); [|discriminate].
  unfold PyM.from_option in H.
  destruct (CHANNEL_DUTY_CYCLE_PROC E !! freq); simpl in H; congruence.
Qed.

End duty_cycle_properties.

(** *** Reception *)

Section reception_properties.
Context {E : Externals}.

Lemma select_window_flags (packet : Packet) (possible_rx1 possible_rx2 : bool)
    (g : Gateway E) :
  let flags := window_flags (dr (p_lora_param packet))
                 possible_rx1 possible_rx2 in
  select_window packet possible_rx1 possible_rx2 g =
    (Ok flags,
     if snd flags then set_downlink_packets_lost (fun l => l ++ [packet]) g
     else g).
Proof.
  unfold select_window, window_flags.
  destruct (3 <? dr (p_lora_param packet))%Z, possible_rx1, possible_rx2;
    reflexivity.
Qed.

Lemma add_channel_time_some (f : Z) (t used : Q) (g : Gateway E) :
  channel_time_used g !! f = Some used ->
  add_channel_time f t g =
    (Ok tt, set_channel_time_used <[f := (used + t)%Q]> g).
Proof.
  intros H. unfold add_channel_time, PyM.bind.
  now rewrite (getitem_some _ _ _ _ H).
Qed.

(** When [adr] and both duty-cycle checks return, so does
    [downlink_decision]: the flags choose the window and the ledger entry
    that is charged. *)
Lemma downlink_decision_ok (from_node : Node E) (packet : Packet)
    (now : Q) (g : Gateway E) (a : option AdrSettings) (p1 p2 : bool)
    (t1 t2 : Q) :
  adr from_node packet g = (Ok a, g) ->
  check_duty_cycle 12 (sf (p_lora_param packet))
    (freq (p_lora_param packet)) now g = (Ok (p1, t1), g) ->
  check_duty_cycle 12 (RX_2_DEFAULT_SF E) (RX_2_DEFAULT_FREQ E) now g
    = (Ok (p2, t2), g) ->
  let flags := window_flags (dr (p_lora_param packet)) p1 p2 in
  downlink_decision from_node packet now g =
    (Ok (decision_message flags a), commit_window packet flags t1 t2 g).
Proof.
  intros Hadr H1 H2.
  destruct (check_duty_cycle_ok 12 (sf (p_lora_param packet))
              (freq (p_lora_param packet)) now g p1 t1) as (_ & u1 & Hu1);
    [now rewrite H1|].
  destruct (check_duty_cycle_ok 12 (RX_2_DEFAULT_SF E) (RX_2_DEFAULT_FREQ E)
              now g p2 t2) as (_ & u2 & Hu2);
    [now rewrite H2|].
  unfold downlink_decision, PyM.bind. rewrite Hadr, H1, H2.
  cbv zeta. rewrite select_window_flags.
  destruct (window_flags (dr (p_lora_param packet)) p1 p2)
    as [tx lost_flag] eqn:Hflags.
  unfold commit_window, decision_message. simpl.
  destruct lost_flag; simpl; [reflexivity|].
  destruct tx.
  - rewrite (add_channel_time_some _ _ u1 g Hu1), Hu1. reflexivity.
  - rewrite (add_channel_time_some _ _ u2 g Hu2), Hu2. reflexivity.
Qed.

(** Every exception of [downlink_decision] is raised before its first
    mutation. *)
Lemma downlink_decision_cases (from_node : Node E) (packet : Packet)
    (now : Q) (g : Gateway E) :
  (exists e, downlink_decision from_node packet now g = (Raise e, g))
  \/ (exists a p1 t1 p2 t2,
        adr from_node packet g = (Ok a, g)
        /\ check_duty_cycle 12 (sf (p_lora_param packet))
             (freq (p_lora_param packet)) now g = (Ok (p1, t1), g)
        /\ check_duty_cycle 12 (RX_2_DEFAULT_SF E) (RX_2_DEFAULT_FREQ E)
             now g = (Ok (p2, t2), g)
        /\ let flags := window_flags (dr (p_lora_param packet)) p1 p2 in
           downlink_decision from_node packet now g =
             (Ok (decision_message flags a),
              commit_window packet flags t1 t2 g)).
Proof.
  destruct (adr from_node packet g) as [[a|e] g1] eqn:Hadr;
    pose proof (adr_frame from_node packet g) as Hf;
    rewrite Hadr in Hf; simpl in Hf; subst g1;
    [|left; exists e; unfold downlink_decision, PyM.bind; now rewrite Hadr].
  destruct (check_duty_cycle 12 (sf (p_lora_param packet))
              (freq (p_lora_param packet)) now g)
    as [[[p1 t1]|e] g1] eqn:H1;
    pose proof (check_duty_cycle_frame 12 (sf (p_lora_param packet))
                  (freq (p_lora_param packet)) now g) as Hf1;
    rewrite H1 in Hf1; simpl in Hf1; subst g1;
    [|left; exists e; unfold downlink_decision, PyM.bind;
      now rewrite Hadr, H1].
  destruct (check_duty_cycle 12 (RX_2_DEFAULT_SF E) (RX_2_DEFAULT_FREQ E)
              now g)
    as [[[p2 t2]|e] g1] eqn:H2;
    pose proof (check_duty_cycle_frame 12 (RX_2_DEFAULT_SF E)
                  (RX_2_DEFAULT_FREQ E) now g) as Hf2;
    rewrite H2 in Hf2; simpl in Hf2; subst g1;
    [|left; exists e; unfold downlink_decision, PyM.bind;
      now rewrite Hadr, H1, H2].
  right. exists a, p1, t1, p2, t2. repeat (split; [reflexivity|]).
  now apply downlink_decision_ok.
Qed.

Lemma with_history_entry_lookup (id : Z) (g : Gateway E) :
  packet_history (with_history_entry id g) !! id = Some (samples g id).
Proof.
  unfold with_history_entry, samples.
  destruct (packet_history g !! id) as [h|] eqn:H.
  - rewrite bool_decide_eq_true_2 by eauto. simpl. now rewrite ?H.
  - rewrite bool_decide_eq_false_2 by (rewrite ?H; apply is_Some_None).
    simpl. now rewrite lookup_insert_eq.
Qed.

Lemma with_history_entry_samples (id id' : Z) (g : Gateway E) :
  samples (with_history_entry id g) id' = samples g id'.
Proof.
  unfold with_history_entry, samples.
  destruct (packet_history g !! id) as [h|] eqn:H.
  - now rewrite bool_decide_eq_true_2 by eauto.
  - rewrite bool_decide_eq_false_2 by (rewrite ?H; apply is_Some_None).
    simpl. destruct (decide (id = id')) as [<- | Hne].
    + now rewrite lookup_insert_eq, ?H.
    + now rewrite lookup_insert_ne.
Qed.

(** The three ways through [packet_received]: a spreading factor without a
    sensitivity threshold, a packet that is too weak, an accepted packet. *)
Lemma packet_received_cases (from_node : Node E) (packet : Packet) (now : Q)
    (g : Gateway E) :
  packet_received from_node packet now g =
    match SENSITIVITY !! sf (p_lora_param packet) with
    | None => (Raise KeyError, with_history_entry (node_id from_node) g)
    | Some threshold =>
        if Qlt_bool (received_strength g from_node packet)
             (inject_Z threshold)
        then (Ok weak_message,
              set_uplink_packet_weak (fun l => l ++ [packet])
                (with_history_entry (node_id from_node) g))
        else downlink_decision from_node packet now
               (record_sample from_node packet g)
    end.
Proof.
  unfold packet_received, PyM.bind, PyM.gets, PyM.when, PyM.modify,
    PyM.from_option, PyM.ret, PyM.raise.
  pose proof (with_history_entry_lookup (node_id from_node) g) as Hl.
  unfold record_sample. unfold with_history_entry in *.
  destruct (bool_decide (is_Some (packet_history g !! node_id from_node)));
    simpl;
    (destruct (SENSITIVITY !! sf (p_lora_param packet)) as [thr|];
     [|reflexivity]);
    change (received_strength (set_packet_history _ g) from_node packet)
      with (received_strength g from_node packet);
    (destruct (Qlt_bool _ _); [reflexivity|]);
    erewrite getitem_some by (simpl; exact Hl); reflexivity.
Qed.

End reception_properties.

Lemma Qlt_bool_iff (a b : Q) : Qlt_bool a b = true <-> (a < b)%Q.
Proof.
  unfold Qlt_bool. rewrite negb_true_iff. split.
  - intros H. apply Qnot_le_lt. intros Hle.
    apply Qle_bool_iff in Hle. congruence.
  - intros H. destruct (Qle_bool b a) eqn:Hb; [|reflexivity].
    apply Qle_bool_iff in Hb. exfalso. now apply (Qlt_not_le a b).
Qed.

Section reception_effects.
Context {E : Externals}.

Lemma with_history_entry_fields (id : Z) (g : Gateway E) :
  gw_location (with_history_entry id g) = gw_location g
  /\ channel_time_used (with_history_entry id g) = channel_time_used g
  /\ downlink_packets_lost (with_history_entry id g) = downlink_packets_lost g
  /\ uplink_packet_weak (with_history_entry id g) = uplink_packet_weak g
  /\ num_of_packet_received (with_history_entry id g)
     = num_of_packet_received g.
Proof. unfold with_history_entry. destruct (bool_decide _); now simpl. Qed.

Lemma record_sample_fields (from_node : Node E) (packet : Packet)
    (g : Gateway E) :
  gw_location (record_sample from_node packet g) = gw_location g
  /\ channel_time_used (record_sample from_node packet g)
     = channel_time_used g
  /\ downlink_packets_lost (record_sample from_node packet g)
     = downlink_packets_lost g
  /\ uplink_packet_weak (record_sample from_node packet g)
     = uplink_packet_weak g
  /\ num_of_packet_received (record_sample from_node packet g)
     = Z.succ (num_of_packet_received g).
Proof.
  destruct (with_history_entry_fields (node_id from_node) g)
    as (H1 & H2 & H3 & H4 & H5).
  unfold record_sample. simpl. now rewrite H1, H2, H3, H4, H5.
Qed.

Lemma record_sample_samples (from_node : Node E) (packet : Packet)
    (g : Gateway E) (id : Z) :
  samples (record_sample from_node packet g) id =
    if bool_decide (node_id from_node = id) then
      deque_append HISTORY_MAXLEN (samples g id)
        (rss_to_snr E (received_strength g from_node packet))
    else samples g id.
Proof.
  unfold record_sample, samples at 1. simpl.
  case_bool_decide as Hid.
  - subst id. now rewrite lookup_insert_eq.
  - rewrite lookup_insert_ne by exact Hid.
    apply with_history_entry_samples.
Qed.

Lemma commit_window_fields (packet : Packet) (flags : bool * bool)
    (t1 t2 : Q) (g : Gateway E) :
  gw_location (commit_window packet flags t1 t2 g) = gw_location g
  /\ packet_history (commit_window packet flags t1 t2 g) = packet_history g
  /\ uplink_packet_weak (commit_window packet flags t1 t2 g)
     = uplink_packet_weak g
  /\ num_of_packet_received (commit_window packet flags t1 t2 g)
     = num_of_packet_received g.
Proof.
  unfold commit_window. destruct flags as [tx [|]]; now simpl.
Qed.

Lemma check_duty_cycle_transfer (payload_size sf freq : Z) (now : Q)
    (g g' : Gateway E) (r : outcome (bool * Q)) :
  channel_time_used g = channel_time_used g' ->
  check_duty_cycle payload_size sf freq now g = (r, g) ->
  check_duty_cycle payload_size sf freq now g' = (r, g').
Proof.
  intros Hl H.
  pose proof (check_duty_cycle_ledger payload_size sf freq now g g' Hl) as Hr.
  pose proof (check_duty_cycle_frame payload_size sf freq now g') as Hs.
  rewrite H in Hr. simpl in Hr.
  destruct (check_duty_cycle payload_size sf freq now g') as [r' s'].
  simpl in *. congruence.
Qed.

(** With a spreading factor between 7 and 12, [adr] returns on every
    known transmitter. *)
Lemma adr_returns (from_node : Node E) (packet : Packet) (g : Gateway E)
    (h : list Q) :
  packet_history g !! node_id from_node = Some h ->
  (7 <= sf (lora_param from_node) <= 12)%Z ->
  exists a, adr from_node packet g = (Ok a, g).
Proof.
  intros H Hsf. destruct (Nat.eq_dec (length h) 20) as [Hlen | Hlen].
  - destruct (np_amax_spec h) as (m & Hm & _); [intros ->; discriminate|].
    destruct (adr_required_snr_some _ Hsf) as (required & Hreq).
    eexists. eapply adr_full; eassumption.
  - eexists. eapply adr_not_full; eassumption.
Qed.

End reception_effects.

(** C2.  A packet whose received strength is below the sensitivity threshold
    of its spreading factor is answered by the dictionary that only holds
    [weak_packet = True]; the packet joins the weak-uplink list; no
    transmitter's samples change (a first contact only gets its empty
    history), and neither the received-packet counter, the channel ledger
    nor the lost-downlink list changes.  This holds whether or not [adr] or
    the duty-cycle checks could have run on that input. *)
Theorem weak_packet_dropped {E : Externals} (from_node : Node E)
    (packet : Packet) (now : Q) (g : Gateway E) (threshold : Z) :
  SENSITIVITY !! sf (p_lora_param packet) = Some threshold ->
  (received_strength g from_node packet < inject_Z threshold)%Q ->
  exists g',
    packet_received from_node packet now g =
      (Ok {| weak_packet := Some true; tx_on_rx1 := None; lost := None;
             msg_dr := None; msg_tp := None |}, g')
    /\ uplink_packet_weak g' = uplink_packet_weak g ++ [packet]
    /\ (forall id, samples g' id = samples g id)
    /\ packet_history g' =
         (if bool_decide (is_Some (packet_history g !! node_id from_node))
          then packet_history g
          else <[node_id from_node := []]> (packet_history g))
    /\ num_of_packet_received g' = num_of_packet_received g
    /\ channel_time_used g' = channel_time_used g
    /\ downlink_packets_lost g' = downlink_packets_lost g
    /\ gw_location g' = gw_location g.
Proof.
  intros Hthr Hweak. apply Qlt_bool_iff in Hweak.
  rewrite packet_received_cases, Hthr, Hweak.
  eexists. split; [reflexivity|].
  destruct (with_history_entry_fields (node_id from_node) g)
    as (H1 & H2 & H3 & H4 & H5).
  simpl. rewrite H1, H2, H3, H4, H5. repeat split.
  - intros id. apply (with_history_entry_samples (node_id from_node) id g).
  - unfold with_history_entry. now destruct (bool_decide _).
Qed.

(** C7.  [check_duty_cycle] leaves the gateway as it found it.  In
    [packet_received] the ledger changes only when the call returns a
    decision with [lost = False]: then the entry of the chosen window's
    channel grows by that window's airtime and every other entry is
    unchanged; on a lost downlink, a weak packet or an exception, the ledger
    is unchanged. *)
Theorem ledger_charged_on_downlink_only {E : Externals} :
  (forall (payload_size sf freq : Z) (now : Q) (g : Gateway E),
     snd (check_duty_cycle payload_size sf freq now g) = g)
  /\ (forall (from_node : Node E) (packet : Packet) (now : Q) (g : Gateway E),
        let g' := snd (packet_received from_node packet now g) in
        match fst (packet_received from_node packet now g) with
        | Ok msg =>
            match lost msg with
            | Some false =>
                let rx1 := match tx_on_rx1 msg with
                           | Some true => true
                           | _ => false
                           end in
                let f := if rx1 then freq (p_lora_param packet)
                         else RX_2_DEFAULT_FREQ E in
                let s := if rx1 then sf (p_lora_param packet)
                         else RX_2_DEFAULT_SF E in
                exists used,
                  channel_time_used g !! f = Some used
                  /\ channel_time_used g' =
                       <[f := (used + time_on_air E 12 f s)%Q]>
                         (channel_time_used g)
                  /\ forall c, c <> f ->
                       channel_time_used g' !! c = channel_time_used g !! c
            | _ => channel_time_used g' = channel_time_used g
            end
        | Raise _ => channel_time_used g' = channel_time_used g
        end).
Proof.
  split; [apply @check_duty_cycle_frame|].
  intros from_node packet now g. cbv zeta.
  rewrite packet_received_cases.
  destruct (with_history_entry_fields (node_id from_node) g)
    as (_ & Hw & _).
  destruct (record_sample_fields from_node packet g) as (_ & Hr & _).
  destruct (SENSITIVITY !! sf (p_lora_param packet)) as [thr|];
    [|exact Hw].
  destruct (Qlt_bool _ _); [exact Hw|].
  destruct (downlink_decision_cases from_node packet now
              (record_sample from_node packet g))
    as [(e & He) | (a & p1 & t1 & p2 & t2 & Hadr & H1 & H2 & Hd)].
  - rewrite He. exact Hr.
  - cbv zeta in Hd. rewrite Hd.
    destruct (check_duty_cycle_ok _ _ _ _ _ _ _ (f_equal fst H1))
      as (-> & u1 & Hu1).
    destruct (check_duty_cycle_ok _ _ _ _ _ _ _ (f_equal fst H2))
      as (-> & u2 & Hu2).
    rewrite Hr in Hu1, Hu2.
    destruct (window_flags (dr (p_lora_param packet)) p1 p2)
      as [tx [|]]; unfold commit_window; simpl; [exact Hr|].
    destruct tx; rewrite Hw.
    + exists u1. rewrite Hu1. simpl.
      split; [reflexivity | split; [reflexivity|]].
      intros c Hc. now rewrite lookup_insert_ne.
    + exists u2. rewrite Hu2. simpl.
      split; [reflexivity | split; [reflexivity|]].
      intros c Hc. now rewrite lookup_insert_ne.
Qed.

(** C8.  For an accepted packet, when [adr] and both duty-cycle checks
    return: above data rate 3 the downlink goes to RX1 if RX1 is admissible
    and else to RX2 if RX2 is; at data rate 3 or below it goes to RX2 if RX2
    is admissible and else to RX1 if RX1 is; when neither window is
    admissible the decision has [lost = True] and the packet is appended to
    the lost-downlink list, which is otherwise unchanged. *)
Theorem downlink_window_precedence {E : Externals} (from_node : Node E)
    (packet : Packet) (now : Q) (g : Gateway E) (threshold : Z)
    (p1 p2 : bool) (t1 t2 : Q) :
  SENSITIVITY !! sf (p_lora_param packet) = Some threshold ->
  (inject_Z threshold <= received_strength g from_node packet)%Q ->
  (7 <= sf (lora_param from_node) <= 12)%Z ->
  check_duty_cycle 12 (sf (p_lora_param packet))
    (freq (p_lora_param packet)) now g = (Ok (p1, t1), g) ->
  check_duty_cycle 12 (RX_2_DEFAULT_SF E) (RX_2_DEFAULT_FREQ E) now g
    = (Ok (p2, t2), g) ->
  exists msg g',
    packet_received from_node packet now g = (Ok msg, g')
    /\ weak_packet msg = None
    /\ ((3 < dr (p_lora_param packet))%Z ->
        (p1 = true -> tx_on_rx1 msg = Some true /\ lost msg = Some false)
        /\ (p1 = false -> p2 = true ->
            tx_on_rx1 msg = Some false /\ lost msg = Some false))
    /\ ((dr (p_lora_param packet) <= 3)%Z ->
        (p2 = true -> tx_on_rx1 msg = Some false /\ lost msg = Some false)
        /\ (p2 = false -> p1 = true ->
            tx_on_rx1 msg = Some true /\ lost msg = Some false))
    /\ (p1 = false -> p2 = false ->
        lost msg = Some true
        /\ tx_on_rx1 msg = Some false
        /\ downlink_packets_lost g' = downlink_packets_lost g ++ [packet]
        /\ length (downlink_packets_lost g')
           = S (length (downlink_packets_lost g)))
    /\ (p1 = true \/ p2 = true ->
        downlink_packets_lost g' = downlink_packets_lost g).
Proof.
  intros Hthr Hrss Hsf H1 H2.
  apply Qle_bool_iff in Hrss.
  destruct (record_sample_fields from_node packet g)
    as (_ & Hledger & Hlost & _).
  assert (Hhist : exists h, packet_history (record_sample from_node packet g)
                              !! node_id from_node = Some h).
  { unfold record_sample. simpl. rewrite lookup_insert_eq. eauto. }
  destruct Hhist as (h & Hh).
  destruct (adr_returns from_node packet _ h Hh Hsf) as (a & Hadr).
  symmetry in Hledger.
  pose proof (check_duty_cycle_transfer _ _ _ _ _ _ _ Hledger H1) as H1'.
  pose proof (check_duty_cycle_transfer _ _ _ _ _ _ _ Hledger H2) as H2'.
  pose proof (downlink_decision_ok from_node packet now _ a p1 p2 t1 t2
                Hadr H1' H2') as Hd.
  cbv zeta in Hd.
  rewrite packet_received_cases, Hthr. unfold Qlt_bool. rewrite Hrss. simpl.
  rewrite Hd. eexists _, _. split; [reflexivity|].
  unfold window_flags, commit_window, decision_message.
  split; [reflexivity|].
  destruct (with_history_entry_fields (node_id from_node) g)
    as (_ & _ & Hlost' & _).
  destruct (Z.ltb_spec 3 (dr (p_lora_param packet))); destruct p1, p2;
    simpl; rewrite ?Hlost', ?length_app; simpl;
    repeat split; intros; try lia; try discriminate; try reflexivity;
    try match goal with
        | Hor : _ \/ _ |- _ => destruct Hor; discriminate
        end.
Qed.

(** *** The SNR history *)

Lemma keep_last_length (n : nat) (l : list Q) :
  (length (keep_last n l) <= n)%nat.
Proof. unfold keep_last. rewrite length_drop. lia. Qed.

Lemma keep_last_short (n : nat) (l : list Q) :
  (length l <= n)%nat -> keep_last n l = l.
Proof.
  intros H. unfold keep_last.
  replace (length l - n)%nat with 0%nat by lia. reflexivity.
Qed.

Lemma keep_last_app_keep_last (n : nat) (l r : list Q) :
  keep_last n (keep_last n l ++ r) = keep_last n (l ++ r).
Proof.
  unfold keep_last. rewrite !length_app, length_drop.
  set (k := (length l - n)%nat).
  rewrite <- (take_drop k l) at 4.
  rewrite <- app_assoc.
  assert (Hk : length (take k l) = k) by (rewrite length_take; lia).
  replace (length l + length r - n)%nat
    with (length (take k l) + (length l - k + length r - n))%nat by lia.
  now rewrite drop_app_add.
Qed.

Lemma deque_append_keep_last (n : nat) (d : list Q) (x : Q) :
  deque_append n d x = keep_last n (d ++ [x]).
Proof. reflexivity. Qed.

Example deque_append_evicts_oldest :
  deque_append 3 [1; 2; 3]%Q 4%Q = [2; 3; 4]%Q
  /\ deque_append 3 [1; 2]%Q 3%Q = [1; 2; 3]%Q.
Proof. split; reflexivity. Qed.

Section history_properties.
Context {E : Externals}.

Lemma downlink_decision_fields (from_node : Node E) (packet : Packet)
    (now : Q) (g : Gateway E) :
  gw_location (snd (downlink_decision from_node packet now g)) = gw_location g
  /\ packet_history (snd (downlink_decision from_node packet now g))
     = packet_history g
  /\ uplink_packet_weak (snd (downlink_decision from_node packet now g))
     = uplink_packet_weak g
  /\ num_of_packet_received (snd (downlink_decision from_node packet now g))
     = num_of_packet_received g.
Proof.
  destruct (downlink_decision_cases from_node packet now g)
    as [(e & He) | (a & p1 & t1 & p2 & t2 & _ & _ & _ & Hd)].
  - now rewrite He.
  - cbv zeta in Hd. rewrite Hd. apply commit_window_fields.
Qed.

Lemma packet_received_location (from_node : Node E) (packet : Packet)
    (now : Q) (g : Gateway E) :
  gw_location (snd (packet_received from_node packet now g)) = gw_location g.
Proof.
  rewrite packet_received_cases.
  destruct (with_history_entry_fields (node_id from_node) g) as (Hw & _).
  destruct (record_sample_fields from_node packet g) as (Hr & _).
  destruct (SENSITIVITY !! sf (p_lora_param packet)); [|exact Hw].
  destruct (Qlt_bool _ _); [exact Hw|].
  destruct (downlink_decision_fields from_node packet now
              (record_sample from_node packet g)) as (-> & _).
  exact Hr.
Qed.

(** The histories after [packet_received], in every case. *)
Lemma packet_received_history (from_node : Node E) (packet : Packet)
    (now : Q) (g : Gateway E) :
  packet_history (snd (packet_received from_node packet now g)) =
    if accepted g from_node packet
    then packet_history (record_sample from_node packet g)
    else packet_history (with_history_entry (node_id from_node) g).
Proof.
  rewrite packet_received_cases. unfold accepted.
  destruct (SENSITIVITY !! sf (p_lora_param packet)); [|reflexivity].
  destruct (Qlt_bool _ _); [reflexivity|]. simpl.
  now destruct (downlink_decision_fields from_node packet now
                  (record_sample from_node packet g)) as (_ & -> & _).
Qed.

Lemma packet_received_samples (from_node : Node E) (packet : Packet)
    (now : Q) (g : Gateway E) (id : Z) :
  samples (snd (packet_received from_node packet now g)) id =
    if accepted g from_node packet && bool_decide (node_id from_node = id)
    then deque_append HISTORY_MAXLEN (samples g id)
           (rss_to_snr E (received_strength g from_node packet))
    else samples g id.
Proof.
  unfold samples at 1. rewrite packet_received_history.
  destruct (accepted g from_node packet); simpl.
  - apply record_sample_samples.
  - apply with_history_entry_samples.
Qed.

(** After a call, the calling transmitter has a history, and no history
    disappears. *)
Lemma packet_received_known (from_node : Node E) (packet : Packet)
    (now : Q) (g : Gateway E) (id : Z) :
  node_id from_node = id \/ is_Some (packet_history g !! id) ->
  is_Some (packet_history (snd (packet_received from_node packet now g))
             !! id).
Proof.
  intros H. rewrite packet_received_history.
  assert (Hw : is_Some (packet_history
                          (with_history_entry (node_id from_node) g) !! id)).
  { destruct H as [<- | H].
    - rewrite with_history_entry_lookup. eauto.
    - unfold with_history_entry. destruct (bool_decide _); [exact H|].
      simpl. rewrite lookup_insert. case_decide; eauto. }
  destruct (accepted g from_node packet); [|exact Hw].
  unfold record_sample. simpl. rewrite lookup_insert.
  case_decide; eauto.
Qed.

Lemma lookup_samples (g : Gateway E) (id : Z) :
  is_Some (packet_history g !! id) ->
  packet_history g !! id = Some (samples g id).
Proof. intros [h Hh]. unfold samples. now rewrite Hh. Qed.

Lemma histories_bounded_samples (g : Gateway E) :
  histories_bounded g <->
  forall id, (length (samples g id) <= HISTORY_MAXLEN)%nat.
Proof.
  unfold histories_bounded, samples. split.
  - intros H id. destruct (packet_history g !! id) as [h|] eqn:Hh; simpl.
    + eauto.
    + unfold HISTORY_MAXLEN. lia.
  - intros H id h Hh. specialize (H id). now rewrite Hh in H.
Qed.

Lemma packet_received_bounded (from_node : Node E) (packet : Packet)
    (now : Q) (g : Gateway E) :
  histories_bounded g ->
  histories_bounded (snd (packet_received from_node packet now g)).
Proof.
  rewrite !histories_bounded_samples. intros H id.
  rewrite packet_received_samples.
  destruct (_ && _); [|apply H].
  rewrite deque_append_keep_last. apply keep_last_length.
Qed.

Lemma arrivals_bounded (evs : list (Node E * Packet * Q)) (g : Gateway E) :
  histories_bounded g -> histories_bounded (arrivals evs g).
Proof.
  revert g. induction evs as [|[[from_node packet] now] evs IH];
    intros g H; simpl; [exact H|].
  apply IH. now apply packet_received_bounded.
Qed.

Lemma init_bounded (loc : Location E) : histories_bounded (init loc).
Proof. intros id h H. simpl in H. now rewrite lookup_empty in H. Qed.

Lemma heard_location (g g' : Gateway E) (id : Z)
    (evs : list (Node E * Packet * Q)) :
  gw_location g = gw_location g' -> heard g id evs = heard g' id evs.
Proof.
  intros H. induction evs as [|ev evs IH]; simpl; [reflexivity|].
  unfold accepted, sample_of, received_strength. now rewrite H, IH.
Qed.

(** A transmitter's history after a sequence of arrivals: the last 20 of
    its earlier samples followed by those of its accepted packets. *)
Lemma arrivals_samples (evs : list (Node E * Packet * Q)) (g : Gateway E)
    (id : Z) :
  (length (samples g id) <= HISTORY_MAXLEN)%nat ->
  samples (arrivals evs g) id =
    keep_last HISTORY_MAXLEN (samples g id ++ heard g id evs).
Proof.
  revert g. induction evs as [|[[from_node packet] now] evs IH];
    intros g Hlen; simpl.
  - rewrite app_nil_r. symmetry. now apply keep_last_short.
  - set (g1 := snd (packet_received from_node packet now g)).
    assert (Hloc : gw_location g1 = gw_location g)
      by apply packet_received_location.
    assert (Hs : samples g1 id =
                 if accepted g from_node packet
                    && bool_decide (node_id from_node = id)
                 then deque_append HISTORY_MAXLEN (samples g id)
                        (rss_to_snr E (received_strength g from_node packet))
                 else samples g id)
      by apply packet_received_samples.
    rewrite (heard_location g g1 id evs (eq_sym Hloc)) in *.
    destruct (_ && _).
    + rewrite IH, Hs, deque_append_keep_last.
      * rewrite keep_last_app_keep_last, <- app_assoc. reflexivity.
      * rewrite Hs, deque_append_keep_last. apply keep_last_length.
    + rewrite IH, Hs; [reflexivity | now rewrite Hs].
Qed.

Lemma arrivals_known (evs : list (Node E * Packet * Q)) (g : Gateway E)
    (id : Z) :
  is_Some (packet_history g !! id) \/
  (exists ev, In ev evs /\ node_id (fst (fst ev)) = id) ->
  is_Some (packet_history (arrivals evs g) !! id).
Proof.
  revert g. induction evs as [|[[from_node packet] now] evs IH];
    intros g H; simpl.
  - destruct H as [H | (ev & [] & _)]. exact H.
  - apply IH. destruct H as [H | (ev & [<- | Hin] & Hid)].
    + left. apply packet_received_known. now right.
    + left. apply packet_received_known. now left.
    + right. eauto.
Qed.

Lemma heard_all (g : Gateway E) (id : Z) (evs : list (Node E * Packet * Q)) :
  Forall (fun ev => node_id (fst (fst ev)) = id
                    /\ accepted g (fst (fst ev)) (snd (fst ev)) = true) evs ->
  heard g id evs = map (sample_of g) evs.
Proof.
  induction 1 as [|ev evs [Hid Hacc] _ IH]; simpl; [reflexivity|].
  rewrite Hacc, bool_decide_eq_true_2 by exact Hid. simpl. now rewrite IH.
Qed.

End history_properties.

(** C5.  A history never holds more than 20 samples: this is true of a new
    gateway and is kept by every sequence of arrivals.  Eviction is first in,
    first out: when a transmitter without samples sends 21 packets that are
    all accepted, its history is then the samples of packets 2 to 21 in the
    order of arrival, the first sample being gone. *)
Theorem history_bounded_fifo {E : Externals} :
  (forall loc : Location E, histories_bounded (init loc))
  /\ (forall (evs : list (Node E * Packet * Q)) (g : Gateway E),
        histories_bounded g -> histories_bounded (arrivals evs g))
  /\ (forall (evs : list (Node E * Packet * Q)) (g : Gateway E) (id : Z),
        samples g id = [] ->
        length evs = 21%nat ->
        Forall (fun ev => node_id (fst (fst ev)) = id
                          /\ accepted g (fst (fst ev)) (snd (fst ev)) = true)
          evs ->
        packet_history (arrivals evs g) !! id
          = Some (drop 1 (map (sample_of g) evs))
        /\ length (drop 1 (map (sample_of g) evs)) = 20%nat).
Proof.
  split; [apply @init_bounded | split; [apply @arrivals_bounded|]].
  intros evs g id Hfresh Hlen Hall. split.
  - rewrite lookup_samples.
    + rewrite arrivals_samples by (rewrite Hfresh; simpl; lia).
      rewrite Hfresh, (heard_all g id evs Hall). simpl.
      unfold keep_last, HISTORY_MAXLEN. now rewrite length_map, Hlen.
    + apply arrivals_known. right.
      destruct evs as [|ev evs]; [discriminate|].
      exists ev. split; [now left|].
      now apply Forall_inv in Hall.
  - rewrite length_drop, length_map, Hlen. reflexivity.
Qed.

(** *** The statistics report *)

Lemma log_ratio_returns (mk : Q -> log_line) (l : list Packet)
    (received : Z) :
  snd (log_ratio mk l received) = Ok tt.
Proof.
  unfold log_ratio.
  destruct (negb (length l =? 0)%nat); simpl; [|reflexivity].
  destruct (Z.eqb_spec received 0) as [|Hne]; simpl; [reflexivity|].
  unfold py_div.
  replace (Qeq_bool (inject_Z received) 0) with false; [reflexivity|].
  symmetry. apply Qeq_bool_false. unfold Qeq. simpl. lia.
Qed.

(** With no elapsed time, the loop over the channels raises on its first
    channel: the two ratio lines have a guard, the channel lines have none. *)
Lemma log_zero_time_raises {E : Externals} (g : Gateway E) (env_now : Q) :
  channel_time_used g <> ∅ ->
  (env_now == 0)%Q ->
  snd (log g env_now) = Raise ZeroDivisionError.
Proof.
  intros Hne H0. unfold log, log_seq.
  pose proof (log_ratio_returns LogLostRatio (downlink_packets_lost g)
                (num_of_packet_received g)) as Hlost.
  destruct (log_ratio LogLostRatio _ _) as [printed r]. simpl in Hlost.
  subst r. simpl.
  destruct (map_to_list (channel_time_used g)) as [|[channel used] rest]
    eqn:Hl.
  - apply map_to_list_empty_iff in Hl. contradiction.
  - simpl. unfold py_div. apply Qeq_bool_iff in H0. now rewrite H0.
Qed.

(** C9 (the code at the failing input).  On a new gateway, [log] at
    simulated time 0 prints its first three lines and raises
    ZeroDivisionError in the loop over the channels. *)
Theorem log_new_gateway_raises :
  log test_gateway 0 =
    ([LogGateway; LogReceived 0; LogLost 0], Raise ZeroDivisionError).
Proof. vm_compute. reflexivity. Qed.

(** C3 (the code at the failing input).  An SF6 node whose packets pass the
    sensitivity filter: its twentieth packet fills the history, and
    [packet_received] raises UnboundLocalError from [adr]; with the history
    full, so does every later call of [adr] for that node. *)
Theorem adr_full_history_without_proposal :
  length <$> packet_history sf6_gateway !! 7%Z = Some 19%nat
  /\ accepted sf6_gateway sf6_node sf6_packet = true
  /\ fst (packet_received sf6_node sf6_packet 1000 sf6_gateway)
     = Raise UnboundLocalError
  /\ let g20 := snd (packet_received sf6_node sf6_packet 1000 sf6_gateway) in
     length <$> packet_history g20 !! 7%Z = Some 20%nat
     /\ fst (adr sf6_node sf6_packet g20) = Raise UnboundLocalError.
Proof. vm_compute. repeat split. Qed.

(** *** The scenarios, run on the test configuration *)

Lemma scenario2_history_max : max_snr_is scenario2_history 5.
Proof.
  split.
  - exists 5%Q. split; [|reflexivity]. right. right. now left.
  - intros x Hin. apply Qle_bool_iff.
    unfold scenario2_history in Hin. simpl in Hin.
    repeat (destruct Hin as [<- | Hin]; [reflexivity|]).
    contradiction.
Qed.

(** C1, as the claim states it, fails on scenario 2: the proposal is data
    rate 4, not 5, because 7.5 / 3 = 2.5 rounds to 2, not to 3. *)
Lemma adr_scenario2_not_dr5 :
  packet_history scenario2_gateway !! 1%Z = Some scenario2_history
  /\ length scenario2_history = 20%nat
  /\ max_snr_is scenario2_history 5
  /\ np_round ((5 - -(25 # 2) - 10) / 3) <> 3%Z
  /\ fst (adr (test_node 1 0 9 2 14) (test_packet 868100000 9 2 14)
            scenario2_gateway)
     <> Ok (Some {| adr_dr := 5; adr_tp := 14 |}).
Proof.
  split; [reflexivity | split; [reflexivity | split]].
  - exact scenario2_history_max.
  - split; [vm_compute; discriminate|].
    intros H. vm_compute in H. discriminate.
Qed.

Lemma adr_scenario2_witness :
  adr (test_node 1 0 9 2 14) (test_packet 868100000 9 2 14) scenario2_gateway
  = (Ok (Some {| adr_dr := 4; adr_tp := 14 |}), scenario2_gateway).
Proof.
  apply (adr_scenario2 (E := line_world) (test_node 1 0 9 2 14)
           (test_packet 868100000 9 2 14) scenario2_gateway
           scenario2_history);
    [reflexivity | reflexivity | exact scenario2_history_max
    | reflexivity | reflexivity | reflexivity | reflexivity].
Defined.

Lemma adr_sf6_raises_witness :
  adr (test_node 1 0 6 2 14) (test_packet 868100000 6 2 14) scenario2_gateway
  = (Raise UnboundLocalError, scenario2_gateway).
Proof.
  apply (adr_sf6_raises (E := line_world) (test_node 1 0 6 2 14)
           (test_packet 868100000 6 2 14) scenario2_gateway
           scenario2_history); reflexivity.
Defined.

Lemma weak_packet_dropped_witness :
  (received_strength test_gateway weak_node weak_packet_sf10 == -(140))%Q
  /\ exists g',
       packet_received weak_node weak_packet_sf10 1000 test_gateway =
         (Ok {| weak_packet := Some true; tx_on_rx1 := None; lost := None;
                msg_dr := None; msg_tp := None |}, g')
       /\ uplink_packet_weak g' = [weak_packet_sf10]
       /\ num_of_packet_received g' = 0%Z
       /\ channel_time_used g' = channel_time_used test_gateway.
Proof.
  split; [reflexivity|].
  destruct (weak_packet_dropped (E := line_world) weak_node weak_packet_sf10
              1000 test_gateway (-133) eq_refl)
    as (g' & Hr & Hweak & _ & _ & Hcount & Hledger & _).
  { reflexivity. }
  exists g'. repeat split; assumption.
Defined.

Lemma ledger_charged_on_downlink_only_witness :
  let g' := snd (packet_received (test_node 1 1000 9 5 14)
                   (test_packet 868100000 9 5 14) 1000 scenario3_gateway) in
  channel_time_used g' !! 868100000%Z = Some (5 + inject_Z 108 / 100)%Q
  /\ forall c, c <> 868100000%Z ->
       channel_time_used g' !! c = channel_time_used scenario3_gateway !! c.
Proof.
  pose proof (proj2 (ledger_charged_on_downlink_only (E := line_world))
                (test_node 1 1000 9 5 14) (test_packet 868100000 9 5 14)
                1000%Q scenario3_gateway) as H.
  cbv zeta in *.
  set (r := packet_received _ _ _ _) in *.
  assert (Hr : fst r = Ok {| weak_packet := None; tx_on_rx1 := Some true;
                             lost := Some false; msg_dr := None;
                             msg_tp := None |}) by reflexivity.
  rewrite Hr in H. simpl in H.
  destruct H as (used & Hused & Hledger & Hothers).
  injection Hused as <-.
  split; [|exact Hothers].
  rewrite Hledger. apply lookup_insert_eq.
Defined.

Lemma downlink_window_precedence_witness :
  exists msg g',
    packet_received (test_node 1 1000 9 5 14) (test_packet 868100000 9 5 14)
      1000 scenario3_gateway = (Ok msg, g')
    /\ tx_on_rx1 msg = Some true /\ lost msg = Some false
    /\ downlink_packets_lost g' = [].
Proof.
  destruct (downlink_window_precedence (E := line_world)
              (test_node 1 1000 9 5 14) (test_packet 868100000 9 5 14)
              1000 scenario3_gateway (-130) true true
              (inject_Z 108 / 100) (inject_Z 144 / 100) eq_refl)
    as (msg & g' & Hr & _ & Hfast & _ & _ & Hkept);
    [discriminate | simpl; lia | reflexivity | reflexivity |].
  exists msg, g'. split; [exact Hr|].
  destruct Hfast as [[Htx Hlost] _]; [simpl; lia | reflexivity |].
  repeat split; [exact Htx | exact Hlost |].
  rewrite Hkept; [reflexivity | now left].
Defined.

Lemma history_bounded_fifo_witness :
  length burst = 21%nat
  /\ length (drop 1 (map (sample_of test_gateway) burst)) = 20%nat
  /\ packet_history (arrivals burst test_gateway) !! 1%Z
     = Some (drop 1 (map (sample_of test_gateway) burst))
  /\ histories_bounded (arrivals burst test_gateway).
Proof.
  split; [reflexivity | split; [reflexivity|]].
  destruct (history_bounded_fifo (E := line_world)) as (Hinit & Hkeep & Hfifo).
  split.
  - apply Hfifo; [reflexivity | reflexivity |].
    unfold burst. simpl. repeat constructor.
  - apply Hkeep, Hinit.
Defined.

(** ** Further properties *)

(** *** Rounding *)

Lemma np_round_floor_or_next (q : Q) :
  np_round q = Qfloor q \/ np_round q = (Qfloor q + 1)%Z.
Proof.
  unfold np_round. destruct (_ ?= _)%Q; auto. destruct (Z.even _); auto.
Qed.

(** The rounded value is a nearest integer. *)
Lemma np_round_nearest (q : Q) :
  (inject_Z (np_round q) - (1 # 2) <= q)%Q
  /\ (q <= inject_Z (np_round q) + (1 # 2))%Q.
Proof.
  pose proof (Qfloor_le q) as Hlo. pose proof (Qlt_floor q) as Hhi.
  rewrite inject_Z_plus in Hhi. unfold np_round. cbv zeta.
  destruct (Qcompare_spec (q - inject_Z (Qfloor q)) (1 # 2)) as [He|Hl|Hg].
  - destruct (Z.even (Qfloor q)); rewrite ?inject_Z_plus;
      change (inject_Z 1) with 1%Q in *; split; lra.
  - change (inject_Z 1) with 1%Q in *. split; lra.
  - rewrite inject_Z_plus. change (inject_Z 1) with 1%Q in *. split; lra.
Qed.

Lemma np_round_mono (q q' : Q) :
  (q <= q')%Q -> (np_round q <= np_round q')%Z.
Proof.
  intros Hle. pose proof (Qfloor_resp_le q q' Hle) as Hfl.
  destruct (Z.eq_dec (Qfloor q) (Qfloor q')) as [Heq | Hne].
  - unfold np_round. cbv zeta. rewrite <- Heq.
    destruct (Qcompare_spec (q - inject_Z (Qfloor q)) (1 # 2));
      destruct (Qcompare_spec (q' - inject_Z (Qfloor q)) (1 # 2));
      try destruct (Z.even (Qfloor q)); try lia; exfalso; lra.
  - destruct (np_round_floor_or_next q) as [-> | ->];
      destruct (np_round_floor_or_next q') as [-> | ->]; lia.
Qed.

(** *** Shape of the ADR proposal *)

Lemma adr_adjust_bounds (num_steps current_dr current_tp : Z) :
  (current_dr <= 5)%Z ->
  (2 <= current_tp <= 14)%Z ->
  let s := adr_adjust num_steps current_dr current_tp in
  (current_dr <= adr_dr s <= 5)%Z
  /\ (2 <= adr_tp s <= 14)%Z
  /\ ((adr_tp s < current_tp)%Z -> adr_dr s = 5%Z)
  /\ ((current_tp < adr_tp s)%Z -> adr_dr s = current_dr)
  /\ ((0 < num_steps)%Z -> (adr_tp s <= current_tp)%Z)
  /\ ((num_steps < 0)%Z -> (current_tp <= adr_tp s)%Z).
Proof.
  intros Hdr Htp. unfold adr_adjust.
  destruct (Z.ltb_spec 0 num_steps).
  - destruct (Z.ltb_spec (5 - current_dr) num_steps); simpl; lia.
  - destruct (Z.ltb_spec num_steps 0); simpl; lia.
Qed.

Lemma adr_adjust_mono (n n' current_dr current_tp : Z) :
  (n <= n')%Z ->
  (current_dr <= 5)%Z ->
  (2 <= current_tp <= 14)%Z ->
  (adr_dr (adr_adjust n current_dr current_tp)
   <= adr_dr (adr_adjust n' current_dr current_tp))%Z
  /\ (adr_tp (adr_adjust n' current_dr current_tp)
      <= adr_tp (adr_adjust n current_dr current_tp))%Z.
Proof.
  intros Hn Hdr Htp. unfold adr_adjust.
  destruct (Z.ltb_spec 0 n); destruct (Z.ltb_spec 0 n');
    destruct (Z.ltb_spec (5 - current_dr) n);
    destruct (Z.ltb_spec (5 - current_dr) n');
    destruct (Z.ltb_spec n 0); destruct (Z.ltb_spec n' 0); simpl; lia.
Qed.

(** A proposal of [adr] comes from a full history of the node, its maximum
    and the required SNR of the node's spreading factor. *)
Lemma adr_some_inv {E : Externals} (from_node : Node E) (packet : Packet)
    (g g' : Gateway E) (s : AdrSettings) :
  adr from_node packet g = (Ok (Some s), g') ->
  exists h max_snr required,
    packet_history g !! node_id from_node = Some h
    /\ length h = 20%nat
    /\ np_amax h = Ok max_snr
    /\ adr_required_snr (sf (lora_param from_node)) = Some required
    /\ s = adr_adjust
             (np_round ((max_snr - required - ADR_MARGIN_DB E) / 3))
             (dr (lora_param from_node)) (tp (lora_param from_node)).
Proof.
  intros H.
  destruct (packet_history g !! node_id from_node) as [h|] eqn:Hh.
  - destruct (Nat.eq_dec (length h) 20) as [Hlen | Hlen].
    + destruct (np_amax_spec h) as (m & Hm & _); [intros ->; discriminate|].
      destruct (adr_required_snr (sf (lora_param from_node)))
        as [required|] eqn:Hreq.
      * rewrite (adr_full _ _ _ h m required Hh Hlen Hm Hreq) in H.
        exists h, m, required. repeat split; try assumption. congruence.
      * rewrite (adr_unbound _ _ _ h Hh Hlen Hreq) in H. discriminate.
    + rewrite (adr_not_full _ _ _ h Hh Hlen) in H. discriminate.
  - rewrite (adr_unknown_node _ _ _ Hh) in H. discriminate.
Qed.

(** X5.  A proposal never lowers the data rate and never leaves the ranges:
    for a node with data rate at most 5 and power between 2 and 14 dBm, the
    proposed data rate is between the current one and 5 and the proposed
    power is between 2 and 14. *)
Theorem adr_proposal_in_range {E : Externals} (from_node : Node E)
    (packet : Packet) (g : Gateway E) (s : AdrSettings) :
  adr from_node packet g = (Ok (Some s), g) ->
  (dr (lora_param from_node) <= 5)%Z ->
  (2 <= tp (lora_param from_node) <= 14)%Z ->
  (dr (lora_param from_node) <= adr_dr s <= 5)%Z
  /\ (2 <= adr_tp s <= 14)%Z.
Proof.
  intros H Hdr Htp.
  destruct (adr_some_inv _ _ _ _ _ H) as (h & m & r & _ & _ & _ & _ & ->).
  destruct (adr_adjust_bounds
              (np_round ((m - r - ADR_MARGIN_DB E) / 3)) _ _ Hdr Htp)
    as (H1 & H2 & _).
  split; assumption.
Qed.

(** X6.  One knob at a time.  The power is lowered only in a proposal that
    puts the data rate at 5, and it is raised only in a proposal that keeps
    the data rate. *)
Theorem adr_power_moves_last {E : Externals} (from_node : Node E)
    (packet : Packet) (g : Gateway E) (s : AdrSettings) :
  adr from_node packet g = (Ok (Some s), g) ->
  (dr (lora_param from_node) <= 5)%Z ->
  (2 <= tp (lora_param from_node) <= 14)%Z ->
  ((adr_tp s < tp (lora_param from_node))%Z -> adr_dr s = 5%Z)
  /\ ((tp (lora_param from_node) < adr_tp s)%Z ->
      adr_dr s = dr (lora_param from_node)).
Proof.
  intros H Hdr Htp.
  destruct (adr_some_inv _ _ _ _ _ H) as (h & m & r & _ & _ & _ & _ & ->).
  destruct (adr_adjust_bounds
              (np_round ((m - r - ADR_MARGIN_DB E) / 3)) _ _ Hdr Htp)
    as (_ & _ & H3 & H4 & _).
  split; assumption.
Qed.

(** X7.  A better link never gets a worse proposal.  For the same node, when
    the best SNR of one full history is at most that of another, the
    proposal from the second has a data rate at least as high and a power at
    most as high. *)
Theorem adr_monotone_in_snr {E : Externals} (from_node : Node E)
    (packet : Packet) (g g' : Gateway E) (h h' : list Q) (m m' : Q)
    (s s' : AdrSettings) :
  packet_history g !! node_id from_node = Some h ->
  packet_history g' !! node_id from_node = Some h' ->
  np_amax h = Ok m ->
  np_amax h' = Ok m' ->
  (m <= m')%Q ->
  adr from_node packet g = (Ok (Some s), g) ->
  adr from_node packet g' = (Ok (Some s'), g') ->
  (dr (lora_param from_node) <= 5)%Z ->
  (2 <= tp (lora_param from_node) <= 14)%Z ->
  (adr_dr s <= adr_dr s')%Z /\ (adr_tp s' <= adr_tp s)%Z.
Proof.
  intros Hh Hh' Hm Hm' Hle H H' Hdr Htp.
  destruct (adr_some_inv _ _ _ _ _ H)
    as (h1 & m1 & r1 & Hh1 & _ & Hm1 & Hr1 & ->).
  destruct (adr_some_inv _ _ _ _ _ H')
    as (h2 & m2 & r2 & Hh2 & _ & Hm2 & Hr2 & ->).
  assert (h1 = h) by congruence. assert (h2 = h') by congruence.
  subst h1 h2.
  assert (m1 = m) by congruence. assert (m2 = m') by congruence.
  assert (r2 = r1) by congruence. subst m1 m2 r2.
  apply adr_adjust_mono; [|assumption|assumption].
  apply np_round_mono. unfold Qdiv.
  apply Qmult_le_compat_r; [|discriminate].
  generalize (ADR_MARGIN_DB E). intros margin. lra.
Qed.

(** X8.  [adr] reads the node's history and settings only.  It leaves the
    gateway unchanged, ignores its packet argument, and returns the same on
    two gateways that hold the same history for the node. *)
Theorem adr_reads_node_history_only {E : Externals} (from_node : Node E)
    (packet packet' : Packet) (g g' : Gateway E) :
  packet_history g !! node_id from_node
  = packet_history g' !! node_id from_node ->
  snd (adr from_node packet g) = g
  /\ fst (adr from_node packet g) = fst (adr from_node packet' g').
Proof.
  intros Hh. split; [apply adr_frame|].
  unfold adr, getitem, PyM.bind, PyM.gets. rewrite Hh.
  destruct (packet_history g' !! node_id from_node) as [h|]; simpl;
    [|reflexivity].
  destruct (length h =? 20)%nat; [|reflexivity].
  destruct (np_amax h); [|reflexivity].
  unfold PyM.from_option. destruct (adr_required_snr _); reflexivity.
Qed.

(** *** Construction and the duty-cycle check *)

Lemma zero_channels_lookup (chs : list Z) (m : gmap Z Q) (c : Z) :
  zero_channels chs m !! c = if decide (c ∈ chs) then Some 0%Q else m !! c.
Proof.
  unfold zero_channels. revert m.
  induction chs as [|a chs IH]; intros m; simpl.
  - destruct (decide (c ∈ [])) as [H|]; [|reflexivity].
    now apply not_elem_of_nil in H.
  - rewrite IH.
    destruct (decide (c ∈ chs)) as [Hin | Hnin];
      destruct (decide (c ∈ a :: chs)) as [Hin' | Hnin'].
    + reflexivity.
    + exfalso. apply Hnin'. now right.
    + apply elem_of_cons in Hin' as [-> | Hin']; [|contradiction].
      now rewrite lookup_insert_eq.
    + rewrite lookup_insert_ne; [reflexivity|].
      intros ->. apply Hnin'. now left.
Qed.

Lemma init_ledger_lookup {E : Externals} (loc : Location E) (c : Z) :
  channel_time_used (init loc) !! c =
    if decide (c ∈ CHANNELS E ++ DEFAULT_CHANNELS E) then Some 0%Q else None.
Proof.
  simpl. rewrite !zero_channels_lookup, lookup_empty.
  destruct (decide (c ∈ DEFAULT_CHANNELS E)) as [Hd | Hd];
    destruct (decide (c ∈ CHANNELS E)) as [Hc | Hc];
    destruct (decide (c ∈ CHANNELS E ++ DEFAULT_CHANNELS E)) as [Ha | Ha];
    try reflexivity; exfalso; rewrite elem_of_app in Ha; tauto.
Qed.

(** X1.  A new gateway.  Its ledger holds exactly the channels of CHANNELS and
    DEFAULT_CHANNELS, each with used time 0, also when a channel is listed
    twice; it knows no transmitter, has recorded no lost or weak packet and
    has counted none. *)
Theorem init_state {E : Externals} (loc : Location E) :
  (forall c,
     channel_time_used (init loc) !! c =
       if decide (c ∈ CHANNELS E ++ DEFAULT_CHANNELS E) then Some 0%Q
       else None)
  /\ (forall id, samples (init loc) id = [])
  /\ downlink_packets_lost (init loc) = []
  /\ uplink_packet_weak (init loc) = []
  /\ num_of_packet_received (init loc) = 0%Z
  /\ gw_location (init loc) = loc.
Proof.
  split; [apply init_ledger_lookup | repeat split].
Qed.

(** X2.  On a new gateway every configured channel passes the duty-cycle
    check, at any time and for any payload and spreading factor, and the
    check of any other frequency raises KeyError. *)
Theorem new_gateway_duty_cycle {E : Externals} (loc : Location E)
    (payload_size sf freq : Z) (now : Q) :
  (freq ∈ CHANNELS E ++ DEFAULT_CHANNELS E ->
   check_duty_cycle payload_size sf freq now (init loc) =
     (Ok (true, time_on_air E payload_size freq sf), init loc))
  /\ (freq ∉ CHANNELS E ++ DEFAULT_CHANNELS E ->
      check_duty_cycle payload_size sf freq now (init loc) =
        (Raise KeyError, init loc)).
Proof.
  pose proof (init_ledger_lookup loc freq) as Hledger.
  split; intros Hin; rewrite decide_bool_decide in Hledger.
  - rewrite bool_decide_eq_true_2 in Hledger by exact Hin.
    apply (check_duty_cycle_unused _ _ _ _ _ 0%Q Hledger). reflexivity.
  - rewrite bool_decide_eq_false_2 in Hledger by exact Hin.
    now apply check_duty_cycle_unknown_channel.
Qed.

(** X3.  What [check_duty_cycle] raises, and when.  ZeroDivisionError exactly
    on a used channel with [now + time_on_air] zero (the cap is not looked
    up before the division); KeyError exactly on a frequency that is not in
    the ledger, or on a used channel without a cap; nothing else.  A channel
    with used time 0 passes without any cap being looked up. *)
Theorem check_duty_cycle_raises {E : Externals} (payload_size sf freq : Z)
    (now : Q) (g : Gateway E) :
  let toa := time_on_air E payload_size freq sf in
  let r := fst (check_duty_cycle payload_size sf freq now g) in
  (r = Raise ZeroDivisionError <->
   exists used, channel_time_used g !! freq = Some used
                /\ ~ (used == 0)%Q /\ (now + toa == 0)%Q)
  /\ (r = Raise KeyError <->
      channel_time_used g !! freq = None
      \/ exists used, channel_time_used g !! freq = Some used
                      /\ ~ (used == 0)%Q /\ ~ (now + toa == 0)%Q
                      /\ CHANNEL_DUTY_CYCLE_PROC E !! freq = None)
  /\ r <> Raise UnboundLocalError
  /\ r <> Raise ValueError.
Proof.
  cbv zeta. unfold check_duty_cycle, getitem, PyM.bind, PyM.gets.
  destruct (channel_time_used g !! freq) as [used|] eqn:Hu; simpl.
  2:{ repeat split; try discriminate; auto.
      intros (u & Hu' & _). discriminate. }
  destruct (Qeq_bool used 0) eqn:H0; simpl.
  { apply Qeq_bool_iff in H0.
    repeat split; try discriminate.
    - intros (u & [= <-] & Hn & _). contradiction.
    - intros [Hn | (u & [= <-] & Hn & _)]; [discriminate | contradiction]. }
  apply Qeq_bool_neq in H0. unfold py_div.
  destruct (Qeq_bool (now + time_on_air E payload_size freq sf) 0) eqn:Hd;
    simpl.
  { apply Qeq_bool_iff in Hd. repeat split; try discriminate; eauto.
    intros [Hn | (u & _ & _ & Hn & _)]; [discriminate | contradiction]. }
  apply Qeq_bool_neq in Hd. unfold PyM.from_option.
  destruct (CHANNEL_DUTY_CYCLE_PROC E !! freq) as [cap|] eqn:Hc; simpl;
    repeat split; try discriminate; eauto 10.
  - intros (u & _ & _ & Hn). contradiction.
  - intros [Hn | (u & _ & _ & _ & Hn)]; discriminate.
  - intros (u & _ & _ & Hn). contradiction.
Qed.

Lemma Qdiv_le_later (a b b' : Q) :
  (0 <= a)%Q -> (0 < b)%Q -> (b <= b')%Q -> (a / b' <= a / b)%Q.
Proof.
  intros Ha Hb Hbb'.
  assert (Hb' : (0 < b')%Q) by lra.
  apply Qle_shift_div_r; [exact Hb'|].
  apply Qle_trans with (a / b * b)%Q.
  - rewrite Qmult_comm, Qmult_div_r; [apply Qle_refl | lra].
  - assert (Hq : (0 <= a / b)%Q).
    { apply Qle_shift_div_l; [exact Hb | lra]. }
    rewrite (Qmult_comm (a / b) b), (Qmult_comm (a / b) b').
    apply Qmult_le_compat_r; assumption.
Qed.

(** X4.  Waiting never closes a window.  With non-negative used time, positive
    airtime and non-negative time, a transmission that is admissible at
    [now] is admissible at every later time, the ledger being the same. *)
Theorem check_duty_cycle_later {E : Externals} (payload_size sf freq : Z)
    (now now' : Q) (g : Gateway E) (used : Q) :
  channel_time_used g !! freq = Some used ->
  (0 <= used)%Q ->
  (0 < time_on_air E payload_size freq sf)%Q ->
  (0 <= now)%Q ->
  (now <= now')%Q ->
  fst (check_duty_cycle payload_size sf freq now g)
    = Ok (true, time_on_air E payload_size freq sf) ->
  check_duty_cycle payload_size sf freq now' g
    = (Ok (true, time_on_air E payload_size freq sf), g).
Proof.
  intros Hu Hused Htoa Hnow Hlater Hadm.
  set (toa := time_on_air E payload_size freq sf) in *.
  destruct (Qeq_dec used 0) as [H0 | H0].
  { now apply (check_duty_cycle_unused _ _ _ _ _ used). }
  assert (Hd : ~ (now + toa == 0)%Q) by lra.
  assert (Hd' : ~ (now' + toa == 0)%Q) by lra.
  destruct (CHANNEL_DUTY_CYCLE_PROC E !! freq) as [cap|] eqn:Hcap.
  - rewrite (check_duty_cycle_used _ _ _ _ _ used cap Hu H0 Hd Hcap) in Hadm.
    rewrite (check_duty_cycle_used _ _ _ _ _ used cap Hu H0 Hd' Hcap).
    fold toa in Hadm |- *. simpl in Hadm.
    assert (Hb : Qle_bool ((used + toa) / (now + toa) * 100) cap = true)
      by congruence.
    apply Qle_bool_iff in Hb.
    assert (Hb' : Qle_bool ((used + toa) / (now' + toa) * 100) cap = true).
    { apply Qle_bool_iff.
      eapply Qle_trans; [|exact Hb].
      apply Qmult_le_compat_r; [|discriminate].
      apply Qdiv_le_later; lra. }
    now rewrite Hb'.
  - exfalso. revert Hadm.
    unfold check_duty_cycle, PyM.bind.
    rewrite (getitem_some _ _ _ _ Hu), (Qeq_bool_false _ _ H0).
    unfold py_div. fold toa. rewrite (Qeq_bool_false _ _ Hd).
    unfold PyM.from_option. rewrite Hcap. discriminate.
Qed.

(** *** One call of [packet_received], field by field *)

Lemma SENSITIVITY_keys (s : Z) :
  SENSITIVITY !! s = None <-> ~ (6 <= s <= 12)%Z.
Proof.
  unfold SENSITIVITY. simpl.
  repeat (rewrite lookup_insert; destruct (decide _) as [<- | ?]).
  all: try (split; [discriminate | lia]).
  rewrite lookup_empty. split; [lia | reflexivity].
Qed.

Lemma accepted_too_weak {E : Externals} (g : Gateway E) (from_node : Node E)
    (packet : Packet) :
  accepted g from_node packet = true ->
  too_weak g from_node packet = false.
Proof.
  unfold accepted, too_weak.
  destruct (SENSITIVITY !! sf (p_lora_param packet)); [|discriminate].
  now destruct (Qlt_bool _ _).
Qed.

Section call_effects.
Context {E : Externals}.

(** [downlink_decision] either records a lost downlink, or charges one
    window's channel, or (on an exception) changes nothing. *)
Lemma downlink_decision_effects (from_node : Node E) (packet : Packet)
    (now : Q) (g : Gateway E) :
  let g' := snd (downlink_decision from_node packet now g) in
  (downlink_packets_lost g' = downlink_packets_lost g
   /\ (channel_time_used g' = channel_time_used g
       \/ exists f t used,
            (f = freq (p_lora_param packet) /\ t = airtime_rx1 E packet
             \/ f = RX_2_DEFAULT_FREQ E /\ t = airtime_rx2 E)
            /\ channel_time_used g !! f = Some used
            /\ channel_time_used g' = <[f := (used + t)%Q]>
                                        (channel_time_used g)))
  \/ (downlink_packets_lost g' = downlink_packets_lost g ++ [packet]
      /\ channel_time_used g' = channel_time_used g).
Proof.
  cbv zeta.
  destruct (downlink_decision_cases from_node packet now g)
    as [(e & He) | (a & p1 & t1 & p2 & t2 & _ & H1 & H2 & Hd)].
  { rewrite He. left. auto. }
  cbv zeta in Hd. rewrite Hd.
  destruct (check_duty_cycle_ok _ _ _ _ _ _ _ (f_equal fst H1))
    as (-> & u1 & Hu1).
  destruct (check_duty_cycle_ok _ _ _ _ _ _ _ (f_equal fst H2))
    as (-> & u2 & Hu2).
  unfold commit_window.
  destruct (window_flags (dr (p_lora_param packet)) p1 p2) as [tx [|]];
    simpl; [right; auto|].
  left. split; [reflexivity|]. right.
  destruct tx.
  - exists (freq (p_lora_param packet)), (airtime_rx1 E packet), u1.
    rewrite Hu1. simpl. auto.
  - exists (RX_2_DEFAULT_FREQ E), (airtime_rx2 E), u2.
    rewrite Hu2. simpl. auto.
Qed.

Lemma packet_received_counter (from_node : Node E) (packet : Packet)
    (now : Q) (g : Gateway E) :
  num_of_packet_received (snd (packet_received from_node packet now g)) =
    if accepted g from_node packet
    then Z.succ (num_of_packet_received g)
    else num_of_packet_received g.
Proof.
  rewrite packet_received_cases. unfold accepted.
  destruct (with_history_entry_fields (node_id from_node) g)
    as (_ & _ & _ & _ & Hw).
  destruct (record_sample_fields from_node packet g)
    as (_ & _ & _ & _ & Hr).
  destruct (SENSITIVITY !! sf (p_lora_param packet)); [|exact Hw].
  destruct (Qlt_bool _ _); simpl; [exact Hw|].
  destruct (downlink_decision_fields from_node packet now
              (record_sample from_node packet g)) as (_ & _ & _ & ->).
  exact Hr.
Qed.

Lemma packet_received_weak_list (from_node : Node E) (packet : Packet)
    (now : Q) (g : Gateway E) :
  uplink_packet_weak (snd (packet_received from_node packet now g)) =
    if too_weak g from_node packet
    then uplink_packet_weak g ++ [packet]
    else uplink_packet_weak g.
Proof.
  rewrite packet_received_cases. unfold too_weak.
  destruct (with_history_entry_fields (node_id from_node) g)
    as (_ & _ & _ & Hw & _).
  destruct (record_sample_fields from_node packet g)
    as (_ & _ & _ & Hr & _).
  destruct (SENSITIVITY !! sf (p_lora_param packet)); [|exact Hw].
  destruct (Qlt_bool _ _); simpl; [now rewrite Hw|].
  destruct (downlink_decision_fields from_node packet now
              (record_sample from_node packet g)) as (_ & _ & -> & _).
  exact Hr.
Qed.

(** The lost list and the ledger after one call. *)
Lemma packet_received_effects (from_node : Node E) (packet : Packet)
    (now : Q) (g : Gateway E) :
  let g' := snd (packet_received from_node packet now g) in
  (downlink_packets_lost g' = downlink_packets_lost g
   /\ (channel_time_used g' = channel_time_used g
       \/ accepted g from_node packet = true
          /\ exists f t used,
               (f = freq (p_lora_param packet) /\ t = airtime_rx1 E packet
                \/ f = RX_2_DEFAULT_FREQ E /\ t = airtime_rx2 E)
               /\ channel_time_used g !! f = Some used
               /\ channel_time_used g' = <[f := (used + t)%Q]>
                                           (channel_time_used g)))
  \/ (accepted g from_node packet = true
      /\ downlink_packets_lost g' = downlink_packets_lost g ++ [packet]
      /\ channel_time_used g' = channel_time_used g).
Proof.
  cbv zeta. rewrite packet_received_cases. unfold accepted.
  destruct (with_history_entry_fields (node_id from_node) g)
    as (_ & Hwl & Hwd & _).
  destruct (record_sample_fields from_node packet g)
    as (_ & Hrl & Hrd & _).
  destruct (SENSITIVITY !! sf (p_lora_param packet)); [|left; auto].
  destruct (Qlt_bool _ _); simpl; [left; auto|].
  destruct (downlink_decision_effects from_node packet now
              (record_sample from_node packet g))
    as [(Hd & [Hl | (f & t & used & Hft & Hu & Hl)]) | (Hd & Hl)].
  - left. rewrite Hd, Hl. auto.
  - left. rewrite Hd. split; [exact Hrd|]. right. split; [reflexivity|].
    exists f, t, used. rewrite <- Hrl. auto.
  - right. rewrite Hd, Hl, Hrd. auto.
Qed.

End call_effects.

(** X9.  A packet whose spreading factor is not one of 6..12 has no
    sensitivity threshold: [packet_received] raises KeyError.  By then the
    transmitter has got its (empty) history entry; no sample, count, ledger
    entry or list has changed. *)
Theorem packet_received_unknown_sf {E : Externals} (from_node : Node E)
    (packet : Packet) (now : Q) (g : Gateway E) :
  ~ (6 <= sf (p_lora_param packet) <= 12)%Z ->
  exists g',
    packet_received from_node packet now g = (Raise KeyError, g')
    /\ is_Some (packet_history g' !! node_id from_node)
    /\ (forall id, samples g' id = samples g id)
    /\ num_of_packet_received g' = num_of_packet_received g
    /\ channel_time_used g' = channel_time_used g
    /\ downlink_packets_lost g' = downlink_packets_lost g
    /\ uplink_packet_weak g' = uplink_packet_weak g.
Proof.
  intros Hsf. apply SENSITIVITY_keys in Hsf.
  rewrite packet_received_cases, Hsf.
  destruct (with_history_entry_fields (node_id from_node) g)
    as (_ & H2 & H3 & H4 & H5).
  eexists. split; [reflexivity|].
  split; [rewrite with_history_entry_lookup; eauto|].
  split; [intros id; apply with_history_entry_samples | auto].
Qed.

(** X10.  What one call does to the histories, whatever it returns or raises.
    Other transmitters' samples are untouched; a packet that is not accepted
    adds nothing; an accepted packet puts its SNR at the end of its
    transmitter's history, which grows by one up to 20 samples and then
    loses its oldest sample. *)
Theorem packet_received_records_sample {E : Externals} (from_node : Node E)
    (packet : Packet) (now : Q) (g : Gateway E) :
  let g' := snd (packet_received from_node packet now g) in
  let id := node_id from_node in
  let snr := rss_to_snr E (received_strength g from_node packet) in
  (forall id', id' <> id -> samples g' id' = samples g id')
  /\ (accepted g from_node packet = false -> samples g' id = samples g id)
  /\ (accepted g from_node packet = true ->
      ((length (samples g id) < 20)%nat ->
       samples g' id = samples g id ++ [snr])
      /\ (length (samples g id) = 20%nat ->
          samples g' id = tail (samples g id) ++ [snr])
      /\ ((length (samples g id) <= 20)%nat ->
          last (samples g' id) = Some snr
          /\ length (samples g' id)
             = Nat.min (S (length (samples g id))) 20)).
Proof.
  cbv zeta.
  assert (Hshort : (length (samples g (node_id from_node)) < 20)%nat ->
            deque_append HISTORY_MAXLEN (samples g (node_id from_node))
              (rss_to_snr E (received_strength g from_node packet))
            = samples g (node_id from_node)
                ++ [rss_to_snr E (received_strength g from_node packet)]).
  { intros Hlt. unfold deque_append, HISTORY_MAXLEN.
    rewrite length_app. simpl.
    replace (_ - 20)%nat with 0%nat by lia. reflexivity. }
  assert (Hfull : length (samples g (node_id from_node)) = 20%nat ->
            deque_append HISTORY_MAXLEN (samples g (node_id from_node))
              (rss_to_snr E (received_strength g from_node packet))
            = tail (samples g (node_id from_node))
                ++ [rss_to_snr E (received_strength g from_node packet)]).
  { intros Heq. unfold deque_append, HISTORY_MAXLEN.
    rewrite length_app, Heq. simpl.
    destruct (samples g (node_id from_node)); [discriminate | reflexivity]. }
  split; [|split].
  - intros id' Hne. rewrite packet_received_samples.
    rewrite (bool_decide_eq_false_2 _ (not_eq_sym Hne)).
    now rewrite andb_false_r.
  - intros Hacc. now rewrite packet_received_samples, Hacc.
  - intros Hacc. rewrite packet_received_samples, Hacc.
    rewrite bool_decide_eq_true_2 by reflexivity. simpl.
    split; [exact Hshort | split; [exact Hfull|]].
    intros Hle.
    destruct (Nat.eq_dec (length (samples g (node_id from_node))) 20)
      as [Heq | Hne].
    + rewrite (Hfull Heq), last_snoc, length_app, Heq. split; [reflexivity|].
      destruct (samples g (node_id from_node)); [discriminate|].
      simpl in *. lia.
    + rewrite Hshort by lia. rewrite last_snoc, length_app. simpl.
      split; [reflexivity | lia].
Qed.

(** *** Whole runs *)

Section run_properties.
Context {E : Externals}.

Lemma arrival_location (g : Gateway E) (ev : Node E * Packet * Q) :
  gw_location (arrival g ev) = gw_location g.
Proof. destruct ev as [[n p] now]. apply packet_received_location. Qed.

Lemma accepted_location (g g' : Gateway E) (from_node : Node E)
    (packet : Packet) :
  gw_location g = gw_location g' ->
  accepted g from_node packet = accepted g' from_node packet
  /\ too_weak g from_node packet = too_weak g' from_node packet.
Proof.
  intros H. unfold accepted, too_weak, received_strength. now rewrite H.
Qed.

Lemma accepted_count_location (g g' : Gateway E)
    (evs : list (Node E * Packet * Q)) :
  gw_location g = gw_location g' ->
  accepted_count g evs = accepted_count g' evs
  /\ weak_packets g evs = weak_packets g' evs.
Proof.
  intros H. induction evs as [|ev evs [IH1 IH2]]; simpl; [auto|].
  destruct (accepted_location g g' (fst (fst ev)) (snd (fst ev)) H)
    as [-> ->].
  now rewrite IH1, IH2.
Qed.

Lemma arrivals_counter (evs : list (Node E * Packet * Q)) (g : Gateway E) :
  num_of_packet_received (arrivals evs g)
  = (num_of_packet_received g + Z.of_nat (accepted_count g evs))%Z.
Proof.
  revert g. induction evs as [|[[n p] now] evs IH]; intros g; simpl.
  - lia.
  - rewrite IH.
    destruct (accepted_count_location (snd (packet_received n p now g)) g evs
                (packet_received_location n p now g)) as [-> _].
    rewrite packet_received_counter.
    destruct (accepted g n p); lia.
Qed.

Lemma arrivals_weak_list (evs : list (Node E * Packet * Q)) (g : Gateway E) :
  uplink_packet_weak (arrivals evs g)
  = uplink_packet_weak g ++ weak_packets g evs.
Proof.
  revert g. induction evs as [|[[n p] now] evs IH]; intros g; simpl.
  - now rewrite app_nil_r.
  - rewrite IH.
    destruct (accepted_count_location (snd (packet_received n p now g)) g evs
                (packet_received_location n p now g)) as [_ ->].
    rewrite packet_received_weak_list.
    destruct (too_weak g n p); [|reflexivity].
    now rewrite <- app_assoc.
Qed.

Lemma arrivals_lost_list (evs : list (Node E * Packet * Q)) (g : Gateway E) :
  exists k,
    downlink_packets_lost (arrivals evs g) = downlink_packets_lost g ++ k
    /\ (length k <= accepted_count g evs)%nat
    /\ forall p, In p k ->
         exists ev, In ev evs /\ snd (fst ev) = p
                    /\ accepted g (fst (fst ev)) (snd (fst ev)) = true.
Proof.
  revert g. induction evs as [|[[n p] now] evs IH]; intros g; simpl.
  - exists []. rewrite app_nil_r. repeat split; [simpl; lia | contradiction].
  - destruct (IH (snd (packet_received n p now g))) as (k & Hk & Hlen & Hin).
    pose proof (packet_received_location n p now g) as Hloc.
    destruct (accepted_count_location _ g evs Hloc) as [Hc _].
    rewrite Hc in Hlen.
    assert (Hin' : forall q, In q k ->
              exists ev, In ev evs /\ snd (fst ev) = q
                         /\ accepted g (fst (fst ev)) (snd (fst ev)) = true).
    { intros q Hq. destruct (Hin q Hq) as (ev & Hev & Hp & Hacc).
      exists ev. repeat split; try assumption.
      now rewrite <- (proj1 (accepted_location _ g _ _ Hloc)). }
    destruct (packet_received_effects n p now g)
      as [(Hd & _) | (Hacc & Hd & _)]; cbv zeta in Hd.
    + exists k. rewrite Hk, Hd. split; [reflexivity|].
      split; [destruct (accepted g n p); lia|].
      intros q Hq. destruct (Hin' q Hq) as (ev & Hev & H').
      exists ev. split; [now right | exact H'].
    + exists (p :: k). rewrite Hk, Hd, <- app_assoc. split; [reflexivity|].
      rewrite Hacc. split; [simpl; lia|].
      intros q [<- | Hq].
      * exists (n, p, now). simpl. auto.
      * destruct (Hin' q Hq) as (ev & Hev & H').
        exists ev. split; [now right | exact H'].
Qed.

Lemma packet_received_ledger_keys (from_node : Node E) (packet : Packet)
    (now : Q) (g : Gateway E) (c : Z) :
  is_Some (channel_time_used (snd (packet_received from_node packet now g))
             !! c)
  <-> is_Some (channel_time_used g !! c).
Proof.
  destruct (packet_received_effects from_node packet now g)
    as [(_ & [Hl | (_ & f & t & used & _ & Hu & Hl)]) | (_ & _ & Hl)];
    cbv zeta in Hl; rewrite Hl; try reflexivity.
  rewrite lookup_insert. destruct (decide (f = c)) as [<- | Hne].
  - rewrite Hu. split; eauto.
  - reflexivity.
Qed.

End run_properties.

(** X11.  The books of a run.  After any sequence of arrivals the counter has
    grown by the number of accepted packets and the weak-uplink list has
    grown by the rejected packets, in arrival order; calls that raise after
    the filter still count. *)
Theorem arrivals_accounting {E : Externals}
    (evs : list (Node E * Packet * Q)) (g : Gateway E) :
  num_of_packet_received (arrivals evs g)
  = (num_of_packet_received g + Z.of_nat (accepted_count g evs))%Z
  /\ uplink_packet_weak (arrivals evs g)
     = uplink_packet_weak g ++ weak_packets g evs.
Proof. split; [apply arrivals_counter | apply arrivals_weak_list]. Qed.

(** X12.  The lost-downlink list only grows at its end, by packets that were
    accepted; so, counted from a new gateway, there are never more lost
    downlinks than received packets. *)
Theorem lost_downlinks_bounded {E : Externals}
    (evs : list (Node E * Packet * Q)) :
  (forall g : Gateway E,
     exists k,
       downlink_packets_lost (arrivals evs g) = downlink_packets_lost g ++ k
       /\ (length k <= accepted_count g evs)%nat
       /\ forall p, In p k ->
            exists ev, In ev evs /\ snd (fst ev) = p
                       /\ accepted g (fst (fst ev)) (snd (fst ev)) = true)
  /\ (forall loc : Location E,
        (Z.of_nat (length (downlink_packets_lost (arrivals evs (init loc))))
         <= num_of_packet_received (arrivals evs (init loc)))%Z).
Proof.
  split; [intros g; apply arrivals_lost_list|].
  intros loc. rewrite arrivals_counter.
  destruct (arrivals_lost_list evs (init loc)) as (k & -> & Hlen & _).
  simpl. lia.
Qed.

(** X13.  The set of channels of the ledger is fixed at construction: no
    sequence of arrivals adds or removes a key. *)
Theorem ledger_keys_fixed {E : Externals}
    (evs : list (Node E * Packet * Q)) (g : Gateway E) (c : Z) :
  is_Some (channel_time_used (arrivals evs g) !! c)
  <-> is_Some (channel_time_used g !! c).
Proof.
  revert g. induction evs as [|[[n p] now] evs IH]; intros g; simpl.
  - reflexivity.
  - rewrite IH. apply packet_received_ledger_keys.
Qed.

(** X14.  With non-negative airtimes, the used time of every channel never
    decreases along a run. *)
Theorem ledger_non_decreasing {E : Externals}
    (evs : list (Node E * Packet * Q)) (g : Gateway E) (c : Z) (used : Q) :
  (0 <= airtime_rx2 E)%Q ->
  Forall (fun ev => (0 <= airtime_rx1 E (snd (fst ev)))%Q) evs ->
  channel_time_used g !! c = Some used ->
  exists used',
    channel_time_used (arrivals evs g) !! c = Some used'
    /\ (used <= used')%Q.
Proof.
  intros Hrx2 Hall. revert g used.
  induction Hall as [|[[n p] now] evs Hrx1 _ IH]; intros g used Hu; simpl.
  - exists used. split; [exact Hu | apply Qle_refl].
  - simpl in Hrx1.
    assert (Hstep : exists u1,
              channel_time_used (snd (packet_received n p now g)) !! c
              = Some u1 /\ (used <= u1)%Q).
    { destruct (packet_received_effects n p now g)
        as [(_ & [Hl | (_ & f & t & u & Hft & Hf & Hl)]) | (_ & _ & Hl)];
        cbv zeta in Hl; rewrite Hl;
        try (exists used; split; [exact Hu | apply Qle_refl]).
      rewrite lookup_insert. destruct (decide (f = c)) as [-> | Hne].
      - exists (u + t)%Q. split; [reflexivity|].
        assert (u = used) by congruence. subst u.
        assert (Hadd : forall a b : Q, (0 <= b)%Q -> (a <= a + b)%Q)
          by (intros a b Hb; lra).
        destruct Hft as [[_ ->] | [_ ->]]; now apply Hadd.
      - exists used. split; [exact Hu | apply Qle_refl]. }
    destruct Hstep as (u1 & Hu1 & Hle1).
    destruct (IH _ _ Hu1) as (u' & Hu' & Hle').
    exists u'. split; [exact Hu' | lra].
Qed.

(** *** Returned decisions and raised exceptions *)

Section decisions.
Context {E : Externals}.

Lemma check_duty_cycle_raise_cases (payload_size sf freq : Z) (now : Q)
    (g : Gateway E) (e : exn) :
  fst (check_duty_cycle payload_size sf freq now g) = Raise e ->
  (e = KeyError
   /\ (channel_time_used g !! freq = None
       \/ CHANNEL_DUTY_CYCLE_PROC E !! freq = None))
  \/ (e = ZeroDivisionError
      /\ (now + time_on_air E payload_size freq sf == 0)%Q).
Proof.
  unfold check_duty_cycle, getitem, PyM.bind, PyM.gets.
  destruct (channel_time_used g !! freq) as [used|]; simpl;
    [|intros [= <-]; auto].
  destruct (Qeq_bool used 0); simpl; [discriminate|].
  unfold py_div.
  destruct (Qeq_bool (now + time_on_air E payload_size freq sf) 0) eqn:Hd;
    simpl.
  { intros [= <-]. right. split; [reflexivity|]. now apply Qeq_bool_iff. }
  unfold PyM.from_option.
  destruct (CHANNEL_DUTY_CYCLE_PROC E !! freq); simpl;
    [discriminate | intros [= <-]; auto].
Qed.

Lemma check_duty_cycle_returns (payload_size sf freq : Z) (now : Q)
    (g : Gateway E) :
  is_Some (channel_time_used g !! freq) ->
  is_Some (CHANNEL_DUTY_CYCLE_PROC E !! freq) ->
  ~ (now + time_on_air E payload_size freq sf == 0)%Q ->
  exists possible,
    check_duty_cycle payload_size sf freq now g =
      (Ok (possible, time_on_air E payload_size freq sf), g).
Proof.
  intros [used Hu] [cap Hc] Hd.
  destruct (Qeq_dec used 0) as [H0 | H0].
  - exists true. now apply (check_duty_cycle_unused _ _ _ _ _ used).
  - eexists. now apply (check_duty_cycle_used _ _ _ _ _ used cap).
Qed.

Lemma adr_none_inv (from_node : Node E) (packet : Packet)
    (g g' : Gateway E) :
  adr from_node packet g = (Ok None, g') ->
  exists h, packet_history g !! node_id from_node = Some h
            /\ length h <> 20%nat.
Proof.
  intros H.
  destruct (packet_history g !! node_id from_node) as [h|] eqn:Hh.
  - exists h. split; [reflexivity|]. intros Hlen.
    destruct (np_amax_spec h) as (m & Hm & _); [intros ->; discriminate|].
    destruct (adr_required_snr (sf (lora_param from_node)))
      as [required|] eqn:Hreq.
    + rewrite (adr_full _ _ _ h m required Hh Hlen Hm Hreq) in H.
      discriminate.
    + rewrite (adr_unbound _ _ _ h Hh Hlen Hreq) in H. discriminate.
  - rewrite (adr_unknown_node _ _ _ Hh) in H. discriminate.
Qed.

(** On a known transmitter, the only exception of [adr] is the unbound
    required SNR on a full history. *)
Lemma adr_raise_inv (from_node : Node E) (packet : Packet)
    (g : Gateway E) (h : list Q) (e : exn) :
  packet_history g !! node_id from_node = Some h ->
  fst (adr from_node packet g) = Raise e ->
  e = UnboundLocalError
  /\ length h = 20%nat
  /\ ~ (7 <= sf (lora_param from_node) <= 12)%Z.
Proof.
  intros Hh H.
  destruct (Nat.eq_dec (length h) 20) as [Hlen | Hlen].
  - destruct (adr_required_snr (sf (lora_param from_node)))
      as [required|] eqn:Hreq.
    + destruct (np_amax_spec h) as (m & Hm & _); [intros ->; discriminate|].
      rewrite (adr_full _ _ _ h m required Hh Hlen Hm Hreq) in H.
      discriminate.
    + rewrite (adr_unbound _ _ _ h Hh Hlen Hreq) in H.
      injection H as <-. repeat split; [exact Hlen|].
      intros Hsf. destruct (adr_required_snr_some _ Hsf) as (r & Hr).
      congruence.
  - rewrite (adr_not_full _ _ _ h Hh Hlen) in H. discriminate.
Qed.

Lemma downlink_decision_raise_inv (from_node : Node E) (packet : Packet)
    (now : Q) (g : Gateway E) (e : exn) :
  fst (downlink_decision from_node packet now g) = Raise e ->
  fst (adr from_node packet g) = Raise e
  \/ fst (check_duty_cycle 12 (sf (p_lora_param packet))
            (freq (p_lora_param packet)) now g) = Raise e
  \/ fst (check_duty_cycle 12 (RX_2_DEFAULT_SF E) (RX_2_DEFAULT_FREQ E)
            now g) = Raise e.
Proof.
  intros H.
  destruct (downlink_decision_cases from_node packet now g)
    as [(e' & He) | (a & p1 & t1 & p2 & t2 & _ & _ & _ & Hd)].
  2:{ cbv zeta in Hd. rewrite Hd in H. discriminate. }
  clear He e'. revert H. unfold downlink_decision, PyM.bind.
  destruct (adr from_node packet g) as [[a|e1] g1] eqn:Hadr;
    pose proof (adr_frame from_node packet g) as Hf;
    rewrite Hadr in Hf; simpl in Hf; subst g1; [|simpl; intros [= <-]; auto].
  destruct (check_duty_cycle 12 (sf (p_lora_param packet))
              (freq (p_lora_param packet)) now g)
    as [[[p1 t1]|e1] g1] eqn:H1;
    pose proof (check_duty_cycle_frame 12 (sf (p_lora_param packet))
                  (freq (p_lora_param packet)) now g) as Hf1;
    rewrite H1 in Hf1; simpl in Hf1; subst g1; [|simpl; intros [= <-]; auto].
  destruct (check_duty_cycle 12 (RX_2_DEFAULT_SF E) (RX_2_DEFAULT_FREQ E)
              now g)
    as [[[p2 t2]|e1] g1] eqn:H2;
    pose proof (check_duty_cycle_frame 12 (RX_2_DEFAULT_SF E)
                  (RX_2_DEFAULT_FREQ E) now g) as Hf2;
    rewrite H2 in Hf2; simpl in Hf2; subst g1; [|simpl; intros [= <-]; auto].
  intros H. exfalso.
  pose proof (downlink_decision_ok from_node packet now g a p1 p2 t1 t2
                Hadr H1 H2) as Hok.
  cbv zeta in Hok. unfold downlink_decision, PyM.bind in Hok.
  rewrite Hadr, H1, H2 in Hok. rewrite Hok in H. discriminate.
Qed.

Lemma record_sample_lookup (from_node : Node E) (packet : Packet)
    (g : Gateway E) :
  packet_history (record_sample from_node packet g) !! node_id from_node
  = Some (samples (record_sample from_node packet g) (node_id from_node)).
Proof.
  apply lookup_samples. unfold record_sample. simpl.
  rewrite lookup_insert_eq. eauto.
Qed.

(** A call that returns has either rejected the packet, or accepted it and
    decided from the results of [adr] and of the two duty-cycle checks. *)
Lemma packet_received_ok_inv (from_node : Node E) (packet : Packet)
    (now : Q) (g g' : Gateway E) (msg : DownlinkMessage) :
  packet_received from_node packet now g = (Ok msg, g') ->
  (too_weak g from_node packet = true /\ msg = weak_message)
  \/ (accepted g from_node packet = true
      /\ exists a p1 t1 p2 t2,
           adr from_node packet (record_sample from_node packet g)
           = (Ok a, record_sample from_node packet g)
           /\ check_duty_cycle 12 (sf (p_lora_param packet))
                (freq (p_lora_param packet)) now g = (Ok (p1, t1), g)
           /\ check_duty_cycle 12 (RX_2_DEFAULT_SF E) (RX_2_DEFAULT_FREQ E)
                now g = (Ok (p2, t2), g)
           /\ msg = decision_message
                      (window_flags (dr (p_lora_param packet)) p1 p2) a
           /\ g' = commit_window packet
                     (window_flags (dr (p_lora_param packet)) p1 p2) t1 t2
                     (record_sample from_node packet g)).
Proof.
  rewrite packet_received_cases. unfold too_weak, accepted.
  destruct (SENSITIVITY !! sf (p_lora_param packet)); [|discriminate].
  destruct (Qlt_bool _ _); [intros [= <- _]; auto|].
  intros H. right. split; [reflexivity|].
  destruct (downlink_decision_cases from_node packet now
              (record_sample from_node packet g))
    as [(e & He) | (a & p1 & t1 & p2 & t2 & Hadr & H1 & H2 & Hd)].
  { rewrite He in H. discriminate. }
  cbv zeta in Hd. rewrite Hd in H. injection H as <- <-.
  destruct (record_sample_fields from_node packet g) as (_ & Hl & _).
  exists a, p1, t1, p2, t2. repeat split; try assumption.
  - exact (check_duty_cycle_transfer _ _ _ _ _ _ _ Hl H1).
  - exact (check_duty_cycle_transfer _ _ _ _ _ _ _ Hl H2).
Qed.

End decisions.

Lemma deque_append_length (n : nat) (d : list Q) (x : Q) :
  length (deque_append n d x) = Nat.min (S (length d)) n.
Proof.
  unfold deque_append. rewrite length_drop, !length_app.
  change (length [x]) with 1%nat. lia.
Qed.

Lemma commit_window_samples {E : Externals} (packet : Packet)
    (flags : bool * bool) (t1 t2 : Q) (g : Gateway E) (id : Z) :
  samples (commit_window packet flags t1 t2 g) id = samples g id.
Proof.
  unfold samples.
  now destruct (commit_window_fields packet flags t1 t2 g) as (_ & -> & _).
Qed.

(** X15.  When the decision carries an ADR proposal.  A returned decision for
    an accepted packet has the keys dr and tp exactly when the transmitter's
    history, with the new sample, holds 20 samples, that is from the
    twentieth accepted packet on; the two keys come together. *)
Theorem proposal_iff_history_full {E : Externals} (from_node : Node E)
    (packet : Packet) (now : Q) (g g' : Gateway E) (msg : DownlinkMessage) :
  packet_received from_node packet now g = (Ok msg, g') ->
  weak_packet msg = None ->
  (is_Some (msg_dr msg) <->
   (19 <= length (samples g (node_id from_node)))%nat)
  /\ (is_Some (msg_dr msg) <->
      length (samples g' (node_id from_node)) = 20%nat)
  /\ (is_Some (msg_tp msg) <-> is_Some (msg_dr msg)).
Proof.
  intros H Hweak.
  destruct (packet_received_ok_inv _ _ _ _ _ _ H)
    as [[_ ->] | (Hacc & a & p1 & t1 & p2 & t2 & Hadr & _ & _ & -> & ->)];
    [discriminate|].
  rewrite commit_window_samples.
  pose proof (record_sample_lookup from_node packet g) as Hl.
  assert (Hlen : length (samples (record_sample from_node packet g)
                           (node_id from_node))
                 = Nat.min (S (length (samples g (node_id from_node)))) 20).
  { rewrite record_sample_samples, bool_decide_eq_true_2 by reflexivity.
    apply deque_append_length. }
  simpl. destruct a as [s|]; simpl.
  - destruct (adr_some_inv _ _ _ _ _ Hadr) as (h & _ & _ & Hh & Hfull & _).
    assert (h = samples (record_sample from_node packet g)
                  (node_id from_node)) by congruence.
    subst h. repeat split; intros; eauto; lia.
  - destruct (adr_none_inv _ _ _ _ Hadr) as (h & Hh & Hnot).
    assert (h = samples (record_sample from_node packet g)
                  (node_id from_node)) by congruence.
    subst h.
    repeat split; intros Hs;
      try (now apply is_Some_None in Hs); exfalso; lia.
Qed.

(** X16.  A downlink is only scheduled on a window that passed its duty-cycle
    check, and it is lost exactly when both checks failed.  The checks are
    those of the ledger before the call. *)
Theorem scheduled_window_is_admissible {E : Externals} (from_node : Node E)
    (packet : Packet) (now : Q) (g g' : Gateway E) (msg : DownlinkMessage) :
  packet_received from_node packet now g = (Ok msg, g') ->
  weak_packet msg = None ->
  exists p1 t1 p2 t2,
    check_duty_cycle 12 (sf (p_lora_param packet))
      (freq (p_lora_param packet)) now g = (Ok (p1, t1), g)
    /\ check_duty_cycle 12 (RX_2_DEFAULT_SF E) (RX_2_DEFAULT_FREQ E) now g
       = (Ok (p2, t2), g)
    /\ (lost msg = Some true <-> p1 = false /\ p2 = false)
    /\ (lost msg = Some false -> tx_on_rx1 msg = Some true -> p1 = true)
    /\ (lost msg = Some false -> tx_on_rx1 msg = Some false -> p2 = true)
    /\ (lost msg = Some true -> tx_on_rx1 msg = Some false).
Proof.
  intros H Hweak.
  destruct (packet_received_ok_inv _ _ _ _ _ _ H)
    as [[_ ->] | (_ & a & p1 & t1 & p2 & t2 & _ & H1 & H2 & -> & _)];
    [discriminate|].
  exists p1, t1, p2, t2. split; [exact H1 | split; [exact H2|]].
  unfold decision_message, window_flags. simpl.
  destruct (3 <? dr (p_lora_param packet))%Z, p1, p2; simpl;
    repeat split; intros; try discriminate; try reflexivity;
    try match goal with
        | Hc : _ /\ _ |- _ => destruct Hc; discriminate
        end.
Qed.

(** X17.  The exceptions of [packet_received].  KeyError from the filter, for a
    spreading factor outside 6..12; and, for an accepted packet only:
    UnboundLocalError when the node's spreading factor is outside 7..12 and
    its history becomes full, KeyError when a window's channel is missing
    from the ledger or from the cap table, ZeroDivisionError when
    [now + time_on_air] is zero for a window.  It never raises ValueError:
    [np.amax] is not reached on an empty history. *)
Theorem packet_received_exceptions {E : Externals} (from_node : Node E)
    (packet : Packet) (now : Q) (g : Gateway E) (e : exn) :
  fst (packet_received from_node packet now g) = Raise e ->
  e <> ValueError
  /\ ((e = KeyError /\ ~ (6 <= sf (p_lora_param packet) <= 12)%Z)
      \/ (accepted g from_node packet = true
          /\ ((e = UnboundLocalError
               /\ ~ (7 <= sf (lora_param from_node) <= 12)%Z
               /\ (19 <= length (samples g (node_id from_node)))%nat)
              \/ (e = KeyError
                  /\ (channel_time_used g !! freq (p_lora_param packet)
                      = None
                      \/ CHANNEL_DUTY_CYCLE_PROC E
                           !! freq (p_lora_param packet) = None
                      \/ channel_time_used g !! RX_2_DEFAULT_FREQ E = None
                      \/ CHANNEL_DUTY_CYCLE_PROC E !! RX_2_DEFAULT_FREQ E
                         = None))
              \/ (e = ZeroDivisionError
                  /\ ((now + airtime_rx1 E packet == 0)%Q
                      \/ (now + airtime_rx2 E == 0)%Q))))).
Proof.
  intros H.
  assert (Hmain :
    (e = KeyError /\ ~ (6 <= sf (p_lora_param packet) <= 12)%Z)
    \/ (accepted g from_node packet = true
        /\ ((e = UnboundLocalError
             /\ ~ (7 <= sf (lora_param from_node) <= 12)%Z
             /\ (19 <= length (samples g (node_id from_node)))%nat)
            \/ (e = KeyError
                /\ (channel_time_used g !! freq (p_lora_param packet) = None
                    \/ CHANNEL_DUTY_CYCLE_PROC E
                         !! freq (p_lora_param packet) = None
                    \/ channel_time_used g !! RX_2_DEFAULT_FREQ E = None
                    \/ CHANNEL_DUTY_CYCLE_PROC E !! RX_2_DEFAULT_FREQ E
                       = None))
            \/ (e = ZeroDivisionError
                /\ ((now + airtime_rx1 E packet == 0)%Q
                    \/ (now + airtime_rx2 E == 0)%Q))))).
  { revert H. rewrite packet_received_cases. unfold accepted.
    destruct (SENSITIVITY !! sf (p_lora_param packet)) as [thr|] eqn:Hthr.
    2:{ intros [= <-]. left. split; [reflexivity|].
        now apply SENSITIVITY_keys. }
    destruct (Qlt_bool _ _); [discriminate|]. intros H.
    right. split; [reflexivity|].
    destruct (record_sample_fields from_node packet g) as (_ & Hl & _).
    apply downlink_decision_raise_inv in H as [H | [H | H]].
    - left.
      destruct (adr_raise_inv _ _ _ _ _
                  (record_sample_lookup from_node packet g) H)
        as (-> & Hlen & Hsf).
      repeat split; [exact Hsf|].
      rewrite record_sample_samples, bool_decide_eq_true_2 in Hlen
        by reflexivity.
      rewrite deque_append_length in Hlen. lia.
    - apply check_duty_cycle_raise_cases in H as [[-> Hk] | [-> Hz]].
      + right. left. split; [reflexivity|]. rewrite Hl in Hk. tauto.
      + right. right. split; [reflexivity|]. now left.
    - apply check_duty_cycle_raise_cases in H as [[-> Hk] | [-> Hz]].
      + right. left. split; [reflexivity|]. rewrite Hl in Hk. tauto.
      + right. right. split; [reflexivity|]. now right. }
  split; [|exact Hmain].
  intros ->.
  destruct Hmain as [[? _] | (_ & [[? _] | [[? _] | [? _]]])]; discriminate.
Qed.

Lemma packet_received_returns {E : Externals} (from_node : Node E)
    (packet : Packet) (now : Q) (g : Gateway E) :
  (6 <= sf (p_lora_param packet) <= 12)%Z ->
  (7 <= sf (lora_param from_node) <= 12)%Z ->
  is_Some (channel_time_used g !! freq (p_lora_param packet)) ->
  is_Some (CHANNEL_DUTY_CYCLE_PROC E !! freq (p_lora_param packet)) ->
  is_Some (channel_time_used g !! RX_2_DEFAULT_FREQ E) ->
  is_Some (CHANNEL_DUTY_CYCLE_PROC E !! RX_2_DEFAULT_FREQ E) ->
  ~ (now + airtime_rx1 E packet == 0)%Q ->
  ~ (now + airtime_rx2 E == 0)%Q ->
  exists msg, fst (packet_received from_node packet now g) = Ok msg.
Proof.
  intros Hsf Hnode Hl1 Hc1 Hl2 Hc2 Hd1 Hd2.
  rewrite packet_received_cases.
  destruct (SENSITIVITY !! sf (p_lora_param packet)) as [thr|] eqn:Hthr.
  2:{ apply SENSITIVITY_keys in Hthr. contradiction. }
  destruct (Qlt_bool _ _); [eexists; reflexivity|].
  destruct (record_sample_fields from_node packet g) as (_ & Hl & _).
  destruct (adr_returns from_node packet _ _
              (record_sample_lookup from_node packet g) Hnode) as (a & Hadr).
  rewrite <- Hl in Hl1, Hl2.
  destruct (check_duty_cycle_returns 12 (sf (p_lora_param packet))
              (freq (p_lora_param packet)) now _ Hl1 Hc1 Hd1) as (p1 & H1).
  destruct (check_duty_cycle_returns 12 (RX_2_DEFAULT_SF E)
              (RX_2_DEFAULT_FREQ E) now _ Hl2 Hc2 Hd2) as (p2 & H2).
  pose proof (downlink_decision_ok from_node packet now _ a p1 p2 _ _
                Hadr H1 H2) as Hd.
  cbv zeta in Hd. rewrite Hd. eexists. reflexivity.
Qed.

(** X18.  A run without exception.  When the RX2 channel and the channel of
    every packet are in the ledger and in the cap table, every packet has a
    spreading factor in 6..12, every node one in 7..12, and no
    [now + time_on_air] is zero, every call of the run returns a decision. *)
Theorem run_returns_decisions {E : Externals}
    (evs : list (Node E * Packet * Q)) (g : Gateway E) :
  is_Some (channel_time_used g !! RX_2_DEFAULT_FREQ E) ->
  is_Some (CHANNEL_DUTY_CYCLE_PROC E !! RX_2_DEFAULT_FREQ E) ->
  Forall (fun ev =>
            (6 <= sf (p_lora_param (snd (fst ev))) <= 12)%Z
            /\ (7 <= sf (lora_param (fst (fst ev))) <= 12)%Z
            /\ is_Some (channel_time_used g
                          !! freq (p_lora_param (snd (fst ev))))
            /\ is_Some (CHANNEL_DUTY_CYCLE_PROC E
                          !! freq (p_lora_param (snd (fst ev))))
            /\ ~ (snd ev + airtime_rx1 E (snd (fst ev)) == 0)%Q
            /\ ~ (snd ev + airtime_rx2 E == 0)%Q) evs ->
  Forall (fun o => exists msg, o = Ok msg) (outcomes evs g)
  /\ length (outcomes evs g) = length evs.
Proof.
  intros Hrx2 Hcap2 Hall. revert g Hrx2 Hall.
  induction evs as [|[[n p] now] evs IH]; intros g Hrx2 Hall; simpl.
  - split; [constructor | reflexivity].
  - apply Forall_cons in Hall as [(Hsf & Hnode & Hl & Hc & Hd1 & Hd2) Hall].
    simpl in *.
    destruct (IH (snd (packet_received n p now g))) as [IH1 IH2].
    + now apply packet_received_ledger_keys.
    + eapply Forall_impl; [exact Hall|].
      intros ev (H1 & H2 & H3 & H4). repeat split; try tauto.
      now apply packet_received_ledger_keys.
    + split; [|now rewrite IH2].
      constructor; [|exact IH1].
      now apply packet_received_returns.
Qed.

(** *** The statistics report, again *)

Lemma log_channels_returns (entries : list (Z * Q)) (env_now : Q) :
  ~ (env_now == 0)%Q ->
  snd (log_channels entries env_now) = Ok tt
  /\ length (fst (log_channels entries env_now)) = length entries.
Proof.
  intros Hnow. induction entries as [|[channel used] rest [IH1 IH2]]; simpl.
  - split; reflexivity.
  - unfold py_div. rewrite (Qeq_bool_false _ _ Hnow).
    destruct (log_channels rest env_now) as [printed r]. simpl in *.
    split; [exact IH1 | now rewrite IH2].
Qed.

(** X19.  When [log] raises.  It raises, and then ZeroDivisionError, exactly
    when the simulated time is zero and the ledger has a channel; otherwise
    it returns, having printed one line per channel of the ledger between
    its three header lines, the optional lost ratio and the optional weak
    ratio. *)
Theorem log_raises_iff {E : Externals} (g : Gateway E) (env_now : Q) :
  (snd (log g env_now) = Raise ZeroDivisionError <->
   (env_now == 0)%Q /\ channel_time_used g <> ∅)
  /\ (snd (log g env_now) = Ok tt <->
      ~ ((env_now == 0)%Q /\ channel_time_used g <> ∅))
  /\ (snd (log g env_now) = Ok tt ->
      (3 + size (channel_time_used g) <= length (fst (log g env_now))
       <= 5 + size (channel_time_used g))%nat).
Proof.
  destruct (Qeq_dec env_now 0) as [H0 | H0].
  - destruct (decide (channel_time_used g = ∅)) as [Hempty | Hne].
    + assert (Hok : snd (log g env_now) = Ok tt
                    /\ (3 + size (channel_time_used g)
                        <= length (fst (log g env_now))
                        <= 5 + size (channel_time_used g))%nat).
      { unfold log, log_seq. rewrite Hempty, map_to_list_empty, map_size_empty.
        pose proof (log_ratio_returns LogLostRatio (downlink_packets_lost g)
                      (num_of_packet_received g)) as H1.
        pose proof (log_ratio_returns LogWeakRatio (uplink_packet_weak g)
                      (num_of_packet_received g)) as H2.
        assert (Hlen : forall mk l r,
                  (length (fst (log_ratio mk l r)) <= 1)%nat).
        { intros mk l r. unfold log_ratio.
          destruct (_ && _); [|simpl; lia].
          destruct (py_div _ _); simpl; lia. }
        pose proof (Hlen LogLostRatio (downlink_packets_lost g)
                      (num_of_packet_received g)) as Hl1.
        pose proof (Hlen LogWeakRatio (uplink_packet_weak g)
                      (num_of_packet_received g)) as Hl2.
        destruct (log_ratio LogLostRatio _ _) as [pr1 r1].
        destruct (log_ratio LogWeakRatio _ _) as [pr2 r2].
        simpl in *. subst r1 r2. simpl.
        split; [reflexivity|]. rewrite !length_app. simpl. lia. }
      destruct Hok as [Hok Hlen]. rewrite Hok.
      repeat split; try discriminate; try tauto.
    + rewrite (log_zero_time_raises g env_now Hne H0).
      repeat split; try discriminate; try tauto.
  - assert (Hok : snd (log g env_now) = Ok tt
                  /\ (3 + size (channel_time_used g)
                      <= length (fst (log g env_now))
                      <= 5 + size (channel_time_used g))%nat).
    { unfold log, log_seq.
      pose proof (log_ratio_returns LogLostRatio (downlink_packets_lost g)
                    (num_of_packet_received g)) as H1.
      pose proof (log_ratio_returns LogWeakRatio (uplink_packet_weak g)
                    (num_of_packet_received g)) as H2.
      assert (Hlen : forall mk l r,
                (length (fst (log_ratio mk l r)) <= 1)%nat).
      { intros mk l r. unfold log_ratio.
        destruct (_ && _); [|simpl; lia].
        destruct (py_div _ _); simpl; lia. }
      pose proof (Hlen LogLostRatio (downlink_packets_lost g)
                    (num_of_packet_received g)) as Hl1.
      pose proof (Hlen LogWeakRatio (uplink_packet_weak g)
                    (num_of_packet_received g)) as Hl2.
      destruct (log_channels_returns (map_to_list (channel_time_used g))
                  env_now H0) as [Hc Hcl].
      rewrite length_map_to_list in Hcl.
      destruct (log_ratio LogLostRatio _ _) as [pr1 r1].
      destruct (log_ratio LogWeakRatio _ _) as [pr2 r2].
      destruct (log_channels _ _) as [pr3 r3].
      simpl in *. subst r1 r2 r3. simpl.
      split; [reflexivity|]. rewrite !length_app. simpl. lia. }
    destruct Hok as [Hok Hlen]. rewrite Hok.
    repeat split; try discriminate; try tauto.
Qed.

(** *** The further properties on the test configuration *)

Lemma scenario2_adr_result :
  adr scenario2_node near_packet scenario2_gateway
  = (Ok (Some {| adr_dr := 4; adr_tp := 14 |}), scenario2_gateway).
Proof.
  assert (Hmax : np_amax scenario2_history = Ok 5%Q)
    by (vm_compute; reflexivity).
  rewrite (adr_full (E := line_world) scenario2_node near_packet
             scenario2_gateway scenario2_history 5 (-(25 # 2))
             eq_refl eq_refl Hmax eq_refl).
  do 3 f_equal.
Qed.

Lemma strong_adr_result :
  adr scenario2_node near_packet strong_gateway
  = (Ok (Some {| adr_dr := 5; adr_tp := 11 |}), strong_gateway).
Proof.
  assert (Hmax : np_amax strong_history = Ok 11%Q)
    by (vm_compute; reflexivity).
  rewrite (adr_full (E := line_world) scenario2_node near_packet
             strong_gateway strong_history 11 (-(25 # 2))
             eq_refl eq_refl Hmax eq_refl).
  do 3 f_equal.
Qed.

Lemma new_gateway_duty_cycle_witness :
  check_duty_cycle 12 9 868100000 0 test_gateway
  = (Ok (true, time_on_air line_world 12 868100000 9), test_gateway)
  /\ check_duty_cycle 12 9 1 0 test_gateway = (Raise KeyError, test_gateway).
Proof.
  split.
  - apply (proj1 (new_gateway_duty_cycle (E := line_world)
                    (0%Z : Location line_world) 12 9 868100000 0)).
    apply list_elem_of_In. simpl. tauto.
  - apply (proj2 (new_gateway_duty_cycle (E := line_world)
                    (0%Z : Location line_world) 12 9 1 0)).
    intros Hin. apply list_elem_of_In in Hin. simpl in Hin.
    intuition discriminate.
Defined.

Lemma check_duty_cycle_later_witness :
  check_duty_cycle 20 10 868100000 2000 scenario3_gateway
  = (Ok (true, time_on_air line_world 20 868100000 10), scenario3_gateway).
Proof.
  apply (check_duty_cycle_later (E := line_world) 20 10 868100000 1000 2000
           scenario3_gateway 5).
  - reflexivity.
  - discriminate.
  - reflexivity.
  - discriminate.
  - discriminate.
  - vm_compute. reflexivity.
Defined.

Lemma adr_proposal_in_range_witness :
  (2 <= 4 <= 5)%Z /\ (2 <= 14 <= 14)%Z.
Proof.
  apply (adr_proposal_in_range (E := line_world) scenario2_node near_packet
           scenario2_gateway {| adr_dr := 4; adr_tp := 14 |}
           scenario2_adr_result); simpl; lia.
Defined.

Lemma adr_power_moves_last_witness :
  ((11 < 14)%Z -> 5%Z = 5%Z) /\ ((14 < 11)%Z -> 5%Z = 2%Z).
Proof.
  apply (adr_power_moves_last (E := line_world) scenario2_node near_packet
           strong_gateway {| adr_dr := 5; adr_tp := 11 |}
           strong_adr_result); simpl; lia.
Defined.

Lemma adr_monotone_in_snr_witness :
  (4 <= 5)%Z /\ (11 <= 14)%Z.
Proof.
  assert (Hmax : np_amax scenario2_history = Ok 5%Q)
    by (vm_compute; reflexivity).
  assert (Hmax' : np_amax strong_history = Ok 11%Q)
    by (vm_compute; reflexivity).
  apply (adr_monotone_in_snr (E := line_world) scenario2_node near_packet
           scenario2_gateway strong_gateway scenario2_history strong_history
           5 11 {| adr_dr := 4; adr_tp := 14 |}
           {| adr_dr := 5; adr_tp := 11 |} eq_refl eq_refl Hmax Hmax');
    [discriminate | exact scenario2_adr_result | exact strong_adr_result
    | simpl; lia | simpl; lia].
Defined.

Lemma adr_reads_node_history_only_witness :
  snd (adr scenario2_node near_packet scenario2_gateway) = scenario2_gateway
  /\ fst (adr scenario2_node near_packet scenario2_gateway)
     = fst (adr scenario2_node sf5_packet
              (set_num_of_packet_received Z.succ scenario2_gateway)).
Proof.
  apply (adr_reads_node_history_only (E := line_world) scenario2_node
           near_packet sf5_packet scenario2_gateway
           (set_num_of_packet_received Z.succ scenario2_gateway)).
  reflexivity.
Defined.

Lemma packet_received_unknown_sf_witness :
  exists g',
    packet_received near_node sf5_packet 1000 test_gateway
    = (Raise KeyError, g')
    /\ num_of_packet_received g' = 0%Z
    /\ uplink_packet_weak g' = [].
Proof.
  destruct (packet_received_unknown_sf (E := line_world) near_node sf5_packet
              1000 test_gateway)
    as (g' & Hr & _ & _ & Hcount & _ & _ & Hweak).
  { simpl. lia. }
  exists g'. repeat split; assumption.
Defined.

Lemma near_call_scenario2 :
  packet_received near_node near_packet 1000 scenario2_gateway
  = (Ok {| weak_packet := None; tx_on_rx1 := Some true; lost := Some false;
           msg_dr := Some 5%Z; msg_tp := Some 2%Z |},
     snd (packet_received near_node near_packet 1000 scenario2_gateway)).
Proof.
  destruct (packet_received near_node near_packet 1000 scenario2_gateway)
    as [r g'] eqn:Hcall.
  assert (Hr : fst (packet_received near_node near_packet 1000
                      scenario2_gateway)
               = Ok {| weak_packet := None; tx_on_rx1 := Some true;
                       lost := Some false; msg_dr := Some 5%Z;
                       msg_tp := Some 2%Z |})
    by (vm_compute; reflexivity).
  rewrite Hcall in Hr. simpl in *. now subst r.
Qed.

Lemma packet_received_records_sample_witness :
  samples (snd (packet_received near_node near_packet 1000 scenario2_gateway))
    1%Z
  = tail scenario2_history
      ++ [rss_to_snr line_world
            (received_strength scenario2_gateway near_node near_packet)].
Proof.
  assert (Hacc : accepted scenario2_gateway near_node near_packet = true)
    by (vm_compute; reflexivity).
  destruct (packet_received_records_sample (E := line_world) near_node
              near_packet 1000 scenario2_gateway) as (_ & _ & H).
  destruct (H Hacc) as (_ & Hfull & _).
  apply Hfull. reflexivity.
Defined.

Lemma lost_downlinks_bounded_witness :
  (Z.of_nat (length (downlink_packets_lost (arrivals burst test_gateway)))
   <= num_of_packet_received (arrivals burst test_gateway))%Z.
Proof.
  exact (proj2 (lost_downlinks_bounded (E := line_world) burst)
           (0%Z : Location line_world)).
Defined.

Lemma short_burst_airtimes :
  Forall (fun ev => (0 <= airtime_rx1 line_world (snd (fst ev)))%Q)
    short_burst.
Proof.
  unfold short_burst.
  repeat (apply Forall_cons; split;
          [apply Qle_bool_iff; vm_compute; reflexivity|]).
  constructor.
Qed.

Lemma ledger_non_decreasing_witness :
  exists used',
    channel_time_used (arrivals short_burst test_gateway) !! 868100000%Z
    = Some used'
    /\ (0 <= used')%Q.
Proof.
  apply (ledger_non_decreasing (E := line_world) short_burst test_gateway
           868100000 0).
  - discriminate.
  - exact short_burst_airtimes.
  - reflexivity.
Defined.

Lemma proposal_iff_history_full_witness :
  is_Some (Some 5%Z)
  <-> (19 <= length (samples scenario2_gateway (node_id near_node)))%nat.
Proof.
  apply (proposal_iff_history_full (E := line_world) near_node near_packet
           1000 scenario2_gateway _ _ near_call_scenario2). reflexivity.
Defined.

Lemma scheduled_window_is_admissible_witness :
  exists p1 t1 p2 t2,
    check_duty_cycle 12 9 868100000 1000 scenario2_gateway
    = (Ok (p1, t1), scenario2_gateway)
    /\ check_duty_cycle 12 12 869525000 1000 scenario2_gateway
       = (Ok (p2, t2), scenario2_gateway)
    /\ p1 = true.
Proof.
  destruct (scheduled_window_is_admissible (E := line_world) near_node
              near_packet 1000 scenario2_gateway _ _ near_call_scenario2
              eq_refl)
    as (p1 & t1 & p2 & t2 & H1 & H2 & _ & Hrx1 & _).
  exists p1, t1, p2, t2. repeat split; [exact H1 | exact H2|].
  now apply Hrx1.
Defined.

Lemma packet_received_exceptions_witness :
  accepted sf6_gateway sf6_node sf6_packet = true
  /\ ~ (7 <= sf (lora_param sf6_node) <= 12)%Z
  /\ (19 <= length (samples sf6_gateway (node_id sf6_node)))%nat.
Proof.
  assert (Hr : fst (packet_received sf6_node sf6_packet 1000 sf6_gateway)
               = Raise UnboundLocalError) by (vm_compute; reflexivity).
  destruct (packet_received_exceptions (E := line_world) sf6_node sf6_packet
              1000 sf6_gateway UnboundLocalError Hr)
    as (_ & [[Hk _] | (Hacc & [(_ & Hsf & Hlen) | [[Hk _] | [Hk _]]])]);
    try discriminate Hk.
  repeat split; assumption.
Defined.

Lemma short_burst_conditions :
  Forall (fun ev =>
            (6 <= sf (p_lora_param (snd (fst ev))) <= 12)%Z
            /\ (7 <= sf (lora_param (fst (fst ev))) <= 12)%Z
            /\ is_Some (channel_time_used test_gateway
                          !! freq (p_lora_param (snd (fst ev))))
            /\ is_Some (CHANNEL_DUTY_CYCLE_PROC line_world
                          !! freq (p_lora_param (snd (fst ev))))
            /\ ~ (snd ev + airtime_rx1 line_world (snd (fst ev)) == 0)%Q
            /\ ~ (snd ev + airtime_rx2 line_world == 0)%Q) short_burst.
Proof.
  unfold short_burst.
  repeat (apply Forall_cons; split;
          [simpl; repeat split; try lia; try discriminate;
           try (eexists; vm_compute; reflexivity)|]).
  constructor.
Qed.

Lemma run_returns_decisions_witness :
  Forall (fun o => exists msg, o = Ok msg) (outcomes short_burst test_gateway)
  /\ length (outcomes short_burst test_gateway) = 3%nat.
Proof.
  apply (run_returns_decisions (E := line_world) short_burst test_gateway).
  - eexists. vm_compute. reflexivity.
  - eexists. vm_compute. reflexivity.
  - exact short_burst_conditions.
Defined.

(** *** The ADR steps and the duty-cycle check in double precision *)

Lemma nearest_even_unique (v : Q) (n : Z) :
  nearest_even v n -> n = np_round v.
Proof.
  intros (Hlo & Hhi & Htie).
  pose proof (Qfloor_le v) as Hfl. pose proof (Qlt_floor v) as Hfu.
  rewrite inject_Z_plus in Hfu. change (inject_Z 1) with 1%Q in Hfu.
  assert (Hn1 : (Qfloor v < n + 1)%Z).
  { rewrite Zlt_Qlt, inject_Z_plus. change (inject_Z 1) with 1%Q. lra. }
  assert (Hn2 : (n < Qfloor v + 2)%Z).
  { rewrite Zlt_Qlt, inject_Z_plus. change (inject_Z 2) with 2%Q. lra. }
  unfold np_round. cbv zeta.
  destruct (Qcompare_spec (v - inject_Z (Qfloor v)) (1 # 2)) as [He | Hl | Hg].
  - assert (Hcases : n = Qfloor v \/ n = (Qfloor v + 1)%Z) by lia.
    destruct Hcases as [-> | ->].
    + rewrite Htie; [reflexivity|]. right. lra.
    + assert (Hev : Z.even (Qfloor v + 1) = true).
      { apply Htie. left. rewrite inject_Z_plus.
        change (inject_Z 1) with 1%Q. lra. }
      rewrite Z.add_1_r, Z.even_succ, <- Z.negb_even in Hev.
      apply negb_true_iff in Hev. now rewrite Hev.
  - assert (Hne : n <> (Qfloor v + 1)%Z).
    { intros ->. rewrite inject_Z_plus in Hlo.
      change (inject_Z 1) with 1%Q in Hlo. lra. }
    lia.
  - assert (Hne : n <> Qfloor v) by (intros ->; lra).
    lia.
Qed.

Lemma double_rounds_to_np_round (x : float) (n : Z) :
  double_rounds_to x n -> Double.np_round x = Double.Steps n.
Proof.
  unfold double_rounds_to, Double.np_round.
  destruct (Prim2SF x) as [s | s | | s m e]; try contradiction.
  - now intros ->.
  - intros H. f_equal. symmetry. exact (nearest_even_unique _ _ H).
Qed.

Lemma no_nan_sample (l : list float) :
  Forall (fun x => PrimFloat.eqb x x = true) l ->
  existsb PrimFloat.is_nan l = false.
Proof.
  induction 1 as [|x l Hx _ IH]; simpl; [reflexivity|].
  unfold PrimFloat.is_nan at 1. now rewrite Hx, IH.
Qed.

(** C4.  The ADR branch table, in the arithmetic of the code.  On a full
    history without NaN, a spreading factor between 7 and 12 and node
    settings of at most 31 bits: let max_snr be the largest sample,
    required_snr the entry of the table -7.5, -10, -12.5, -15, -17.5, -20
    for spreading factors 7 to 12, and q the double
    (max_snr - required_snr - margin) / 3, each operation rounded to
    binary64.  When q is finite and step_count is the integer nearest to q
    (the even one at a tie), [adr] returns one proposal: a positive
    step_count within the room 5 - dr raises the data rate by step_count and
    keeps the power; a positive step_count above the room gives data rate 5
    and lowers the power by 3 dB per remaining step, not below 2 dBm; a
    negative step_count raises the power by 3 dB per step, not above 14 dBm,
    and keeps the data rate; step_count 0 keeps both. *)
Theorem adr_double_branch_table (packet_history : gmap Z (list float))
    (node_id sf current_dr current_tp : Z) (margin : float)
    (h : list float) (step_count : Z) :
  packet_history !! node_id = Some h ->
  length h = 20%nat ->
  Forall (fun x => PrimFloat.eqb x x = true) h ->
  (7 <= sf <= 12)%Z ->
  (- 2 ^ 31 <= current_dr <= 2 ^ 31)%Z ->
  (- 2 ^ 31 <= current_tp <= 2 ^ 31)%Z ->
  let max_snr :=
    fold_left (fun a x => if PrimFloat.ltb a x then x else a)
      (tail h) (hd 0%float h) in
  let required_snr :=
    (if (sf =? 7)%Z then -7.5
     else if (sf =? 8)%Z then -10
     else if (sf =? 9)%Z then -12.5
     else if (sf =? 10)%Z then -15
     else if (sf =? 11)%Z then -17.5
     else -20)%float in
  double_rounds_to ((max_snr - required_snr - margin) / 3)%float step_count ->
  exists s,
    Double.adr packet_history node_id sf current_dr current_tp margin
    = Ok (Some s)
    /\ ((0 < step_count)%Z -> (step_count <= 5 - current_dr)%Z ->
        adr_dr s = (current_dr + step_count)%Z /\ adr_tp s = current_tp)
    /\ ((0 < step_count)%Z \/ (current_dr <= 5)%Z ->
        (5 - current_dr < step_count)%Z ->
        adr_dr s = 5%Z
        /\ adr_tp s =
             Z.max (current_tp - 3 * (step_count - (5 - current_dr))) 2)
    /\ ((step_count < 0)%Z ->
        adr_dr s = current_dr
        /\ adr_tp s = Z.min (current_tp + 3 * - step_count) 14)
    /\ (step_count = 0%Z ->
        adr_dr s = current_dr /\ adr_tp s = current_tp).
Proof.
  intros Hh Hlen Hnan Hsf _ _ max_snr required_snr Hround.
  assert (Hreq : Double.adr_required_snr sf = Some required_snr).
  { unfold Double.adr_required_snr, required_snr.
    repeat (match goal with
            | |- context [(?a =? ?b)%Z] => destruct (Z.eqb_spec a b)
            end; try reflexivity).
    lia. }
  assert (Hmax : Double.np_amax h = Ok max_snr).
  { unfold Double.np_amax, max_snr.
    destruct h as [|x xs]; [discriminate|].
    now rewrite (no_nan_sample _ Hnan). }
  unfold Double.adr. rewrite Hh, Hlen, Hmax, Hreq. simpl.
  rewrite (double_rounds_to_np_round _ _ Hround).
  eexists. split; [reflexivity|].
  unfold Double.adr_adjust, adr_adjust.
  destruct (Z.ltb_spec 0 step_count) as [Hpos | Hnpos].
  - destruct (Z.ltb_spec (5 - current_dr) step_count); simpl;
      repeat split; intros; try lia; f_equal; lia.
  - destruct (Z.ltb_spec step_count 0); simpl; repeat split; intros; try lia;
      f_equal; lia.
Qed.

(** C6.  The duty-cycle check, in the arithmetic of the code.  On a channel
    of the ledger whose used time equals 0 the check passes and returns the
    airtime, whatever [now] is.  Otherwise, [now + time_on_air] not being 0
    and the channel having a cap, it passes exactly when the double
    (used + time_on_air) / (now + time_on_air) * 100, each operation rounded
    to binary64, is at most the cap. *)
Theorem check_duty_cycle_double_admissible
    (channel_time_used caps : gmap Z float)
    (time_on_air : Z -> Z -> Z -> float) (payload_size sf freq : Z)
    (now used : float) :
  channel_time_used !! freq = Some used ->
  let toa := time_on_air payload_size freq sf in
  (PrimFloat.eqb used 0 = true ->
   Double.check_duty_cycle channel_time_used caps time_on_air
     payload_size sf freq now = Ok (true, toa))
  /\ (PrimFloat.eqb used 0 = false ->
      PrimFloat.eqb (now + toa) 0 = false ->
      forall cap, caps !! freq = Some cap ->
      exists admissible,
        Double.check_duty_cycle channel_time_used caps time_on_air
          payload_size sf freq now = Ok (admissible, toa)
        /\ (admissible = true <->
            PrimFloat.leb ((used + toa) / (now + toa) * 100) cap = true)).
Proof.
  intros Hu toa. unfold Double.check_duty_cycle. rewrite Hu. fold toa.
  split.
  - intros H0. now rewrite H0.
  - intros H0 Hd cap Hcap. rewrite H0, Hd, Hcap.
    eexists. split; reflexivity.
Qed.

(** The same sum with the channel at its cap: the exact ratio
    3 / 29.999999999999996 * 100 is above 10, the computed double is 10, and
    the check passes. *)
Example check_duty_cycle_double_at_cap :
  Double.check_duty_cycle {[ 869525000%Z := 1%float ]} eu868_caps two_seconds
    12 12 869525000 0x1.bffffffffffffp+4%float
  = Ok (true, 2%float).
Proof. vm_compute. reflexivity. Qed.

(** Twenty samples one unit in the last place below 8 dB at spreading
    factor 9: the margin 5.999999999999999 and 4.5 round to 10.5 on the way,
    q is the tie 3.5 and [adr] takes 4 steps. *)
Example adr_double_below8 :
  Double.adr {[ 1%Z := below8_doubles ]} 1 9 0 14 10%float
  = Ok (Some {| adr_dr := 4; adr_tp := 14 |}).
Proof. vm_compute. reflexivity. Qed.

Lemma adr_double_branch_table_witness :
  exists s,
    Double.adr {[ 1%Z := scenario2_doubles ]} 1 9 2 14 10%float = Ok (Some s)
    /\ adr_dr s = 4%Z /\ adr_tp s = 14%Z.
Proof.
  assert (Hq : Prim2SF
                 ((fold_left
                     (fun a x => if PrimFloat.ltb a x then x else a)
                     (tail scenario2_doubles) (hd 0%float scenario2_doubles)
                   - (-12.5) - 10) / 3)%float
               = S754_finite false 5629499534213120 (-51))
    by (vm_compute; reflexivity).
  destruct (adr_double_branch_table {[ 1%Z := scenario2_doubles ]} 1 9 2 14
              10%float scenario2_doubles 2)
    as (s & Hs & Hup & _).
  - reflexivity.
  - reflexivity.
  - unfold scenario2_doubles. repeat constructor.
  - lia.
  - lia.
  - lia.
  - unfold double_rounds_to. simpl Z.eqb. cbv iota. rewrite Hq.
    repeat split.
    + apply Qle_bool_iff. vm_compute. reflexivity.
    + apply Qle_bool_iff. vm_compute. reflexivity.
  - exists s. split; [exact Hs|]. apply Hup; lia.
Defined.

Lemma check_duty_cycle_double_admissible_witness :
  Double.check_duty_cycle {[ 868100000%Z := 5%float ]} eu868_caps two_seconds
    20 10 868100000 1000%float
  = Ok (true, 2%float).
Proof.
  assert (Hused : ({[ 868100000%Z := 5%float ]} : gmap Z float)
                  !! 868100000%Z = Some 5%float) by reflexivity.
  destruct (proj2 (check_duty_cycle_double_admissible
                     {[ 868100000%Z := 5%float ]} eu868_caps two_seconds
                     20 10 868100000 1000%float 5%float Hused))
    with (cap := 1%float) as (admissible & Hr & Hiff).
  - reflexivity.
  - reflexivity.
  - reflexivity.
  - rewrite Hr. f_equal. f_equal. apply Hiff. reflexivity.
Defined.
